(** * Garage Senso: a model of [src/main.cpp] and its checked properties

    The sketch samples an infrared distance sensor once per pass of [loop],
    classifies the garage door as open or closed, publishes state changes and
    periodic temperature / humidity telemetry over MQTT, and keeps the MQTT
    session alive.

    The development follows the source top-down: numeric types first (the
    [long] timestamps and the [float] distances), then the globals, the
    events the sketch causes on its collaborators, a small monad in which
    [reconnect], [setup] and [loop] are transcribed, and finally the
    theorems. *)

From Stdlib Require Import ZArith List String Ascii Bool Lia DecimalString.
From Stdlib Require Import Reals Lra Zfloor.
From Bignums Require Import BigZ.
Import ListNotations.

Local Open Scope string_scope.
Local Open Scope list_scope.
Local Open Scope Z_scope.

(** ** Constants of the sketch *)

Definition SENSOR_PIN : Z := 17.          (* A0 *)
Definition LED_RED : Z := 0.
Definition LED_GREEN : Z := 4.
Definition SLEEPMS : Z := 900.
Definition MQTT_SERVER : string := "192.168.0.9".
Definition MQTT_TOPIC : string := "garagedoor".
Definition MQTT_SENSORS : string := "pong".
Definition MQTT_TEMP : string := "garage_temp".
Definition MQTT_HUMI : string := "garage_humi".

(** ** [long] arithmetic

    On the ESP8266 [long] is 32 bits wide.  [millis()] returns an
    [unsigned long]; storing it in [long now] reinterprets the bit pattern,
    and [now - last_msg_sent] wraps around in two's complement. *)

Module Long.

Definition modulus : Z := 2 ^ 32.
Definition half_modulus : Z := 2 ^ 31.

(** The signed value of the low 32 bits of [z]. *)
Definition wrap (z : Z) : Z := (z + half_modulus) mod modulus - half_modulus.

Definition of_ulong (u : Z) : Z := wrap u.
Definition sub (a b : Z) : Z := wrap (a - b).

End Long.

(** ** [float] values of the distance pipeline

    [newdistance] and [olddistance] only ever hold the result of [roundf]
    (or the zero a global starts with), so a value is an integer, an
    infinity or a NaN.  The sign of a zero is not tracked: the sketch never
    distinguishes the two zeros. *)

Inductive cfloat : Type :=
| FNaN : cfloat
| FInf (negative : bool) : cfloat
| FInt (z : Z) : cfloat.

(** IEEE [!=]: a NaN differs from everything, itself included. *)
Definition fneq (a b : cfloat) : bool :=
  match a, b with
  | FInt x, FInt y => negb (x =? y)
  | FInf s, FInf t => negb (Bool.eqb s t)
  | _, _ => true
  end.

(** IEEE [>=] against an integer constant: false on a NaN. *)
Definition fge (a : cfloat) (k : Z) : bool :=
  match a with
  | FNaN => false
  | FInf negative => negb negative
  | FInt z => k <=? z
  end.

(** ** The calibration curve

    [cm = 10650.08 * pow(sensor_read, -0.935) - 10], then
    [newdistance = roundf(cm)].

    For a positive sample the model computes the exact rounding of the exact
    real value of the curve, using integers only.  With
    [y = 2130016 * raw^(-187/200)] we have [cm + 1/2 = (y - 1900) / 200],
    and an integer [t >= 0] is below [y] exactly when
    [t^200 * raw^187 <= 2130016^200].  Floating-point rounding error inside
    [pow] and in the conversion to [float] is not modelled; theorem
    [CalibrationMargin.calibration_margin] shows that on the whole range of
    the ADC the exact value stays clear of every rounding boundary.

    For the sample 0, [pow(0, -0.935)] is [+inf] (C99 F.9.4.4), which
    propagates through the multiplication, the subtraction and [roundf].
    For a negative base and a non-integer exponent [pow] returns a NaN. *)

Module Calibration.

Definition scale : Z := 2130016.          (* 2 * 10650.08 * 100 *)
Definition num : Z := 187.                (* 0.935 = 187 / 200 *)
Definition den : Z := 200.

(** Powers are taken on machine-word integers, so that the model runs. *)
Definition bpow (b e : Z) : bigZ := BigZ.pow (BigZ.of_Z b) (BigZ.of_Z e).

(** With [rp = raw^187] and [sp = s^200], [below_with rp sp t] decides
    [t <= s * raw^(-187/200)] for [t >= 0]. *)
Definition below_with (rp sp : bigZ) (t : Z) : bool :=
  BigZ.leb (BigZ.mul (bpow t den) rp) sp.

(** Likewise [exact_with rp sp t] decides [t = s * raw^(-187/200)]. *)
Definition exact_with (rp sp : bigZ) (t : Z) : bool :=
  BigZ.eqb (BigZ.mul (bpow t den) rp) sp.

(** Bisection: [lo] is below, [hi] is not. *)
Fixpoint bisect (fuel : nat) (rp sp : bigZ) (lo hi : Z) : Z :=
  match fuel with
  | O => lo
  | S fuel' =>
      if hi - lo <=? 1 then lo
      else
        let mid := (lo + hi) / 2 in
        if below_with rp sp mid then bisect fuel' rp sp mid hi
        else bisect fuel' rp sp lo mid
  end.

(** The integer part of [scale * raw^(-187/200)], for [raw >= 1]. *)
Definition floor_y (raw : Z) : Z :=
  bisect 22 (bpow raw num) (bpow scale den) 0 (scale + 1).

(** The least integer not below [scale * raw^(-187/200)]. *)
Definition ceil_y (raw : Z) : Z :=
  if exact_with (bpow raw num) (bpow scale den) (floor_y raw)
  then floor_y raw else floor_y raw + 1.

(** [roundf] rounds to nearest, halves away from zero. *)
Definition rounded_cm (raw : Z) : Z :=
  let t := floor_y raw in
  if 2000 <=? t
  then (t - 1900) / 200                       (* cm >= 0: floor (cm + 1/2) *)
  else - ((2100 - ceil_y raw) / 200).         (* cm < 0: ceil (cm - 1/2) *)

End Calibration.

Definition roundf_cm (sensor_read : Z) : cfloat :=
  if sensor_read <? 0 then FNaN
  else if sensor_read =? 0 then FInf false
  else FInt (Calibration.rounded_cm sensor_read).

(** ** Readings of the DHT22

    [readHumidity] and [readTemperature] return a [float]; the driver
    returns a NaN when the read fails.  The DHT22 reports tenths. *)

Inductive dht_float : Type :=
| DhtNaN : dht_float
| DhtValue (tenths : Z) : dht_float.

(** ** Globals of the sketch and the two indicator pins

    Globals start zeroed (static storage).  [newdistance] is the global of
    that name: [loop] declares a local [newdistance] that hides it, so the
    global is never written.  A pin latch is [None] until the first
    [digitalWrite] to it. *)

Record machine : Type := Machine {
  oldstate : bool;
  state : bool;
  olddistance : cfloat;
  newdistance : cfloat;
  last_msg_sent : Z;
  led_red : option bool;
  led_green : option bool
}.

Definition boot : machine :=
  {| oldstate := false; state := false;
     olddistance := FInt 0; newdistance := FInt 0;
     last_msg_sent := 0;
     led_red := None; led_green := None |}.

Definition set_oldstate (v : bool) (m : machine) : machine :=
  {| oldstate := v; state := state m;
     olddistance := olddistance m; newdistance := newdistance m;
     last_msg_sent := last_msg_sent m;
     led_red := led_red m; led_green := led_green m |}.

Definition set_state (v : bool) (m : machine) : machine :=
  {| oldstate := oldstate m; state := v;
     olddistance := olddistance m; newdistance := newdistance m;
     last_msg_sent := last_msg_sent m;
     led_red := led_red m; led_green := led_green m |}.

Definition set_olddistance (v : cfloat) (m : machine) : machine :=
  {| oldstate := oldstate m; state := state m;
     olddistance := v; newdistance := newdistance m;
     last_msg_sent := last_msg_sent m;
     led_red := led_red m; led_green := led_green m |}.

Definition set_last_msg_sent (v : Z) (m : machine) : machine :=
  {| oldstate := oldstate m; state := state m;
     olddistance := olddistance m; newdistance := newdistance m;
     last_msg_sent := v;
     led_red := led_red m; led_green := led_green m |}.

Definition set_pin (pin : Z) (level : bool) (m : machine) : machine :=
  {| oldstate := oldstate m; state := state m;
     olddistance := olddistance m; newdistance := newdistance m;
     last_msg_sent := last_msg_sent m;
     led_red := if pin =? LED_RED then Some level else led_red m;
     led_green := if pin =? LED_GREEN then Some level else led_green m |}.

(** ** Events: the calls the sketch makes on its collaborators *)

Inductive event : Type :=
| Print (s : string)                  (* Serial.print *)
| Println (s : string)                (* Serial.println *)
| PrintInt (z : Z)                    (* Serial.print(int) *)
| PrintlnFloat (d : cfloat)           (* Serial.println(float) *)
| Connect (suffix : Z)                (* client.connect("DistanceSenso-" + hex suffix) *)
| Publish (topic payload : string)    (* client.publish *)
| ClientLoop                          (* client.loop *)
| ReadHumidity                        (* dht.readHumidity *)
| ReadTemperature                     (* dht.readTemperature *)
| AnalogRead                          (* analogRead(SENSOR_PIN) *)
| PinMode (pin : Z) (output : bool)   (* pinMode *)
| DigitalWrite (pin : Z) (level : bool)
| Delay (ms : Z)
| SetServer (host : string) (port : Z).   (* client.setServer *)

(** ** What the environment answers during one pass of [loop] *)

(** One call of [client.connect]: the value [random(0xffff)] returned for the
    client identifier, and [None] on success or [Some rc] with the value of
    [client.state()] on failure. *)
Record attempt : Type := Attempt {
  suffix : Z;
  failure : option Z
}.

Record tick_input : Type := TickInput {
  in_connected : bool;          (* client.connected() at the top of loop *)
  in_attempts : list attempt;   (* the connect attempts, in order *)
  in_now : Z;                   (* millis() *)
  in_humi : dht_float;
  in_temp : dht_float;
  in_raw : Z                    (* analogRead(SENSOR_PIN) *)
}.

(** ** The monad of the sketch

    A computation reads and writes the globals and appends to the trace of
    events.  Its result is [None] when control never comes back: the only
    such place is the [while] of [reconnect], when every attempt the
    environment answers fails. *)

Definition M (A : Type) : Type := machine -> list event * machine * option A.

Definition ret {A : Type} (a : A) : M A := fun m => ([], m, Some a).

Definition bind {A B : Type} (c : M A) (k : A -> M B) : M B :=
  fun m =>
    match c m with
    | (t1, m1, Some a) =>
        match k a m1 with
        | (t2, m2, r) => (t1 ++ t2, m2, r)
        end
    | (t1, m1, None) => (t1, m1, None)
    end.

Declare Scope sketch_scope.
Delimit Scope sketch_scope with sketch.
Notation "x <- c ;; k" := (bind c (fun x => k))
  (at level 61, c at next level, right associativity) : sketch_scope.
Notation "c ;; k" := (bind c (fun _ => k))
  (at level 61, right associativity) : sketch_scope.
Local Open Scope sketch_scope.

Definition emit (e : event) : M unit := fun m => ([e], m, Some tt).
Definition stuck {A : Type} : M A := fun m => ([], m, None).
Definition get {A : Type} (field : machine -> A) : M A :=
  fun m => ([], m, Some (field m)).
Definition modify (f : machine -> machine) : M unit :=
  fun m => ([], f m, Some tt).
Definition when (b : bool) (c : M unit) : M unit := if b then c else ret tt.

Definition Serial_print (s : string) : M unit := emit (Print s).
Definition Serial_println (s : string) : M unit := emit (Println s).
Definition client_publish (topic payload : string) : M unit :=
  emit (Publish topic payload).
Definition delay (ms : Z) : M unit := emit (Delay ms).
Definition digitalWrite (pin : Z) (level : bool) : M unit :=
  emit (DigitalWrite pin level) ;; modify (set_pin pin level).
Definition pinMode (pin : Z) (output : bool) : M unit :=
  emit (PinMode pin output).

(** ** [reconnect]

    [connected] is what [client.connected()] answers at the head of the
    [while]: after an attempt it is the outcome of that attempt. *)

Fixpoint reconnect (connected : bool) (attempts : list attempt) : M unit :=
  if connected then ret tt
  else
    match attempts with
    | [] => stuck
    | a :: rest =>
        Serial_print "Attempting MQTT connection..." ;;
        emit (Connect (suffix a)) ;;
        match failure a with
        | None =>
            Serial_println "connected" ;;
            client_publish MQTT_TOPIC "sensor_online" ;;
            reconnect true rest
        | Some rc =>
            Serial_print "failed, rc=" ;;
            emit (PrintInt rc) ;;
            Serial_println " try again in 5 seconds" ;;
            delay 5000 ;;
            reconnect false rest
        end
    end.

(** ** [setup]

    The serial banner, the association with the access point and the reading
    of the MAC address into [uid] come first and touch none of the globals
    modelled here; they are left out. *)

Definition setup : M unit :=
  (* PIN Setup *)
  pinMode SENSOR_PIN false ;;
  pinMode LED_RED true ;;
  pinMode LED_GREEN true ;;
  (* MQTT Stuff *)
  emit (SetServer MQTT_SERVER 1883) ;;
  (* State values initialized *)
  modify (set_oldstate true) ;;
  modify (set_state true).

(** ** [loop] *)

Section Loop.

(** [dtostrf(x, 5, 2, buf)] of the Arduino core, which is not part of the
    sketch. *)
Variable dtostrf : dht_float -> string.

Definition telemetry (i : tick_input) (now : Z) : M unit :=
  modify (set_last_msg_sent now) ;;
  client_publish MQTT_SENSORS "ping" ;;
  emit ReadHumidity ;;
  let humi := in_humi i in
  emit ReadTemperature ;;
  let temp := in_temp i in
  let hum := dtostrf humi in
  let tmp := dtostrf temp in
  client_publish MQTT_TEMP tmp ;;
  client_publish MQTT_HUMI hum ;;
  Serial_print "Temperature " ;;
  Serial_println tmp ;;
  Serial_print "Humidity " ;;
  Serial_println hum.

Definition loop (i : tick_input) : M unit :=
  (* Check if MQTT is connected *)
  when (negb (in_connected i)) (reconnect false (in_attempts i)) ;;
  emit ClientLoop ;;
  (* Send MQTT Ping And read DHT once every 10 seconds *)
  let now := Long.of_ulong (in_now i) in
  last <- get last_msg_sent ;;
  when (10000 <? Long.sub now last) (telemetry i now) ;;
  (* Read distance *)
  emit AnalogRead ;;
  let sensor_read := in_raw i in
  let newdistance := roundf_cm sensor_read in
  old <- get olddistance ;;
  when (fneq old newdistance)
    (Serial_print "New distance " ;; emit (PrintlnFloat newdistance)) ;;
  modify (set_state (if fge newdistance 20 then true else false)) ;;
  (* Only Print if Status Changed *)
  st <- get state ;;
  ost <- get oldstate ;;
  when (negb (Bool.eqb st ost))
    (if Bool.eqb st true
     then
       Serial_println "Sesame is Open" ;;
       client_publish MQTT_TOPIC "garage_opened" ;;
       digitalWrite LED_GREEN true ;;
       digitalWrite LED_RED false
     else
       Serial_println "Sesame is CLOSED" ;;
       client_publish MQTT_TOPIC "garage_closed" ;;
       digitalWrite LED_GREEN false ;;
       digitalWrite LED_RED true) ;;
  (* Keep states of previous run *)
  st <- get state ;;
  modify (set_oldstate st) ;;
  modify (set_olddistance newdistance) ;;
  (* Give it some rest *)
  delay SLEEPMS.

(** The process: [loop] called back to back. *)
Fixpoint run (ticks : list tick_input) : M unit :=
  match ticks with
  | [] => ret tt
  | i :: rest => loop i ;; run rest
  end.

(** [setup] once, then the passes of [loop]. *)
Definition sketch (ticks : list tick_input) : M unit := setup ;; run ticks.

End Loop.

(** ** Observing a computation *)

Definition trace_of {A : Type} (r : list event * machine * option A) : list event :=
  fst (fst r).
Definition machine_of {A : Type} (r : list event * machine * option A) : machine :=
  snd (fst r).
Definition result_of {A : Type} (r : list event * machine * option A) : option A :=
  snd r.

(** The pass gets past [reconnect]: the session is up, or an attempt
    succeeds. *)
Definition reaches_broker (i : tick_input) : bool :=
  in_connected i
  || existsb (fun a => match failure a with None => true | Some _ => false end)
       (in_attempts i).

(** The door state a sample is classified as: [true] is OPEN. *)
Definition door_open (raw : Z) : bool := fge (roundf_cm raw) 20.

Definition is_publish (e : event) : bool :=
  match e with Publish _ _ => true | _ => false end.

Definition publish_on (topic : string) (e : event) : bool :=
  match e with Publish t _ => String.eqb t topic | _ => false end.

(** State-change messages: ["garage_opened"] and ["garage_closed"]. *)
Definition is_state_change (e : event) : bool :=
  match e with
  | Publish t p =>
      String.eqb t MQTT_TOPIC
      && (String.eqb p "garage_opened" || String.eqb p "garage_closed")
  | _ => false
  end.

Definition is_ping (e : event) : bool :=
  match e with
  | Publish t p => String.eqb t MQTT_SENSORS && String.eqb p "ping"
  | _ => false
  end.

Definition is_online (e : event) : bool :=
  match e with
  | Publish t p => String.eqb t MQTT_TOPIC && String.eqb p "sensor_online"
  | _ => false
  end.

Definition is_distance_log (e : event) : bool :=
  match e with PrintlnFloat _ => true | _ => false end.

Definition is_analog_read (e : event) : bool :=
  match e with AnalogRead => true | _ => false end.

Definition is_backoff (e : event) : bool :=
  match e with Delay ms => ms =? 5000 | _ => false end.

Definition state_changes (t : list event) : list event := filter is_state_change t.
Definition pings (t : list event) : list event := filter is_ping t.
Definition publishes (t : list event) : list event := filter is_publish t.

(** The scheduler's test, as [loop] evaluates it. *)
Definition fires (m : machine) (i : tick_input) : bool :=
  10000 <? Long.sub (Long.of_ulong (in_now i)) (last_msg_sent m).

(** Both indicators have been driven and exactly one of them is high. *)
Definition exactly_one_indicator (m : machine) : Prop :=
  (led_green m = Some true /\ led_red m = Some false)
  \/ (led_green m = Some false /\ led_red m = Some true).

(** The indicators show the door state [open]: green for OPEN, red for
    CLOSED. *)
Definition indicators_show (open : bool) (m : machine) : Prop :=
  led_green m = Some open /\ led_red m = Some (negb open).

Definition is_digital_write (e : event) : bool :=
  match e with DigitalWrite _ _ => true | _ => false end.

(** The levels of green and red after each [digitalWrite] among the calls
    [t], in the order of the calls, from the indicators of [m] on: what the
    two lights show at each point in between. *)
Fixpoint pin_history (t : list event) (m : machine)
    : list (option bool * option bool) :=
  match t with
  | [] => []
  | DigitalWrite pin level :: rest =>
      (led_green (set_pin pin level m), led_red (set_pin pin level m))
        :: pin_history rest (set_pin pin level m)
  | _ :: rest => pin_history rest m
  end.

(** Both levels have been driven and exactly one of them is high. *)
Definition one_high (levels : option bool * option bool) : bool :=
  match levels with
  | (Some green, Some red) => xorb green red
  | _ => false
  end.

Definition is_telemetry (e : event) : bool :=
  is_ping e || publish_on MQTT_TEMP e || publish_on MQTT_HUMI e.

(** The events [reconnect] can cause. *)
Definition is_reconnect_event (e : event) : bool :=
  match e with
  | Print _ | Println _ | PrintInt _ | Connect _ => true
  | Delay ms => ms =? 5000
  | Publish _ _ => is_online e
  | _ => false
  end.

(** ** The curve as the specification writes it *)

Module Spec.

Local Open Scope R_scope.

Definition cm (raw : Z) : R := 10650.08 * Rpower (IZR raw) (-0.935) - 10.

(** Round to nearest, halves away from zero. *)
Definition round (x : R) : Z :=
  if Rle_dec 0 x then Zfloor (x + / 2) else (- Zfloor (- x + / 2))%Z.

Definition distance (raw : Z) : Z := round (cm raw).

End Spec.

(** ** Real quantities behind the integer tests *)

Module CurveReal.

Local Open Scope R_scope.

(** [raw^(187/200)] and [y = scale * raw^(-187/200)]. *)
Definition root (raw : Z) : R := Rpower (IZR raw) (187 / 200).
Definition y (raw : Z) : R :=
  IZR Calibration.scale * Rpower (IZR raw) (- (187 / 200)).

End CurveReal.

(** ** A check that leaves room for floating-point error

    [margin_ok raw] decides that every value within a relative error of
    [2^-17] of [scale * raw^(-187/200)] leads to the same rounded distance,
    which is at least 1. *)

Module Margin.

Import Calibration.

Definition slack : Z := 131072.

(** [below_scaled raw a c] decides [a <= c * y raw]. *)
Definition below_scaled (raw a c : Z) : bool :=
  below_with (bpow raw num) (bpow (c * scale) den) a.

Definition margin_ok (raw : Z) : bool :=
  let n := rounded_cm raw in
  if 1 <=? n then
    if below_scaled raw ((200 * n + 1900) * slack) (slack - 1)
    then negb (below_scaled raw ((200 * n + 2100) * slack) (slack + 1))
    else false
  else false.

(** The samples of the 10-bit ADC for which the curve is finite. *)
Definition adc_samples : list Z := map Z.of_nat (seq 1 1024).

End Margin.

(** ** A formatter and some inputs, to run the model on *)

Definition pad_left (width : nat) (s : string) : string :=
  String.concat "" (repeat " " (width - String.length s)) ++ s.

Definition decimal (n : Z) : string :=
  DecimalString.NilZero.string_of_uint (N.to_uint (Z.to_N n)).

(** In the manner of the ESP8266 core: ["nan"] for a NaN, else at least five
    characters with two decimals. *)
Definition dtostrf_5_2 (x : dht_float) : string :=
  match x with
  | DhtNaN => "nan"
  | DhtValue t =>
      pad_left 5
        ((if t <? 0 then "-" else "")
         ++ decimal (Z.abs t / 10) ++ "." ++ decimal (Z.abs t mod 10) ++ "0")
  end.

Definition tick (connected : bool) (now raw : Z) : tick_input :=
  {| in_connected := connected; in_attempts := [];
     in_now := now; in_humi := DhtValue 553; in_temp := DhtValue 215;
     in_raw := raw |}.

Definition tick_humidity_failed : tick_input :=
  {| in_connected := true; in_attempts := [];
     in_now := 10001; in_humi := DhtNaN; in_temp := DhtValue 215;
     in_raw := 500 |}.

(** ** What one pass of [loop] does, in closed form *)

Definition connect_trace (i : tick_input) : list event :=
  if in_connected i then [] else trace_of (reconnect false (in_attempts i) boot).

Definition telemetry_trace (dtostrf : dht_float -> string) (m : machine)
    (i : tick_input) : list event :=
  if fires m i then
    [Publish MQTT_SENSORS "ping"; ReadHumidity; ReadTemperature;
     Publish MQTT_TEMP (dtostrf (in_temp i));
     Publish MQTT_HUMI (dtostrf (in_humi i));
     Print "Temperature "; Println (dtostrf (in_temp i));
     Print "Humidity "; Println (dtostrf (in_humi i))]
  else [].

Definition distance_trace (m : machine) (i : tick_input) : list event :=
  if fneq (olddistance m) (roundf_cm (in_raw i))
  then [Print "New distance "; PrintlnFloat (roundf_cm (in_raw i))]
  else [].

Definition edge_trace (m : machine) (i : tick_input) : list event :=
  if Bool.eqb (door_open (in_raw i)) (oldstate m) then []
  else if door_open (in_raw i) then
    [Println "Sesame is Open"; Publish MQTT_TOPIC "garage_opened";
     DigitalWrite LED_GREEN true; DigitalWrite LED_RED false]
  else
    [Println "Sesame is CLOSED"; Publish MQTT_TOPIC "garage_closed";
     DigitalWrite LED_GREEN false; DigitalWrite LED_RED true].

Definition after_tick (m : machine) (i : tick_input) : machine :=
  let edge := negb (Bool.eqb (door_open (in_raw i)) (oldstate m)) in
  {| oldstate := door_open (in_raw i);
     state := door_open (in_raw i);
     olddistance := roundf_cm (in_raw i);
     newdistance := newdistance m;
     last_msg_sent :=
       if fires m i then Long.of_ulong (in_now i) else last_msg_sent m;
     led_red := if edge then Some (negb (door_open (in_raw i))) else led_red m;
     led_green := if edge then Some (door_open (in_raw i)) else led_green m |}.

(** An attempt that fails with client state [rc]. *)
Definition failed_attempt (p : Z * Z) : attempt :=
  {| suffix := fst p; failure := Some (snd p) |}.

Definition failure_events (p : Z * Z) : list event :=
  [Print "Attempting MQTT connection..."; Connect (fst p);
   Print "failed, rc="; PrintInt (snd p); Println " try again in 5 seconds";
   Delay 5000].

Definition success_events (s : Z) : list event :=
  [Print "Attempting MQTT connection..."; Connect s;
   Println "connected"; Publish MQTT_TOPIC "sensor_online"].

(** ** Vocabulary of the statements *)

(** The globals and pins as [setup] leaves them. *)
Definition booted : machine := machine_of (setup boot).

(** The first pass of [loop] after [setup]. *)
Definition first_pass (dtostrf : dht_float -> string) (i : tick_input) :=
  loop dtostrf i booted.

(** No state-change message on the first pass. *)
Definition first_pass_silent (dtostrf : dht_float -> string) (i : tick_input) : Prop :=
  state_changes (trace_of (first_pass dtostrf i)) = [].

(** The pass ends with the door classified CLOSED. *)
Definition classified_closed (dtostrf : dht_float -> string) (m : machine)
    (i : tick_input) : Prop :=
  state (machine_of (loop dtostrf i m)) = false.

(** Every pass of [ticks] reads a clock value in [w, w + 10000]. *)
Definition within_window (w : Z) (ticks : list tick_input) : Prop :=
  Forall (fun i => w <= in_now i <= w + 10000) ticks.

(** The scheduler fires as soon as a full interval has elapsed. *)
Definition fires_from_interval (dtostrf : dht_float -> string) (m : machine)
    (i : tick_input) : Prop :=
  10000 <= in_now i - last_msg_sent m
  <-> pings (trace_of (loop dtostrf i m)) <> [].

(** * Further code: the device identity and the network half of [setup] *)

(** ** [macToStr] *)

Section MacToStr.

(** [String(value, 16)] of the Arduino core, which is not part of the
    sketch. *)
Variable String16 : Byte.byte -> string.

Definition macToStr (mac : list Byte.byte) : string :=
  fold_left
    (fun (result : string) (i : nat) =>
       let result := String.append result (String16 (nth i mac Byte.x00)) in
       if (i <? 5)%nat then String.append result ":" else result)
    (seq 0 6) "".

End MacToStr.

(** No [':'] occurs in [s]. *)
Fixpoint no_colon (s : string) : bool :=
  match s with
  | EmptyString => true
  | String c rest => negb (Ascii.eqb c ":"%char) && no_colon rest
  end.

(** [utoa] in base 16, as the Arduino core renders an [unsigned char]:
    lowercase, no leading zero.  It serves to run [macToStr]. *)
Definition hex_digit (d : N) : string := substring (N.to_nat d) 1 "0123456789abcdef".

Definition utoa16 (b : Byte.byte) : string :=
  let n := Byte.to_N b in
  if (n <? 16)%N then hex_digit n
  else String.append (hex_digit (n / 16)) (hex_digit (n mod 16)).

Definition mac_example : list Byte.byte :=
  [Byte.x5c; Byte.xcf; Byte.x7f; Byte.x0a; Byte.x00; Byte.xb3].

(** A decoder for [utoa16], by search. *)
Definition all_bytes : list Byte.byte :=
  flat_map (fun n => match Byte.of_N (N.of_nat n) with Some b => [b] | None => [] end)
    (seq 0 256).

Definition of_utoa16 (s : string) : option Byte.byte :=
  find (fun b => String.eqb (utoa16 b) s) all_bytes.

Definition mac_example' : list Byte.byte :=
  [Byte.x5c; Byte.xcf; Byte.x7f; Byte.xa0; Byte.x00; Byte.xb3].

(** ** The first half of [setup]: serial banner, access point, identity

    These calls have no counterpart among the events of [loop]; the wider
    type [setup_event] adds them. *)

Definition VERSION : string := "1.0".

Inductive setup_event : Type :=
| Sketch (e : event)
| SerialBegin (baud : Z)                  (* Serial.begin *)
| WiFiBegin (ssid passphrase : string)    (* WiFi.begin *)
| WiFiStatus                              (* WiFi.status *)
| PrintlnLocalIP                          (* Serial.println(WiFi.localIP()) *)
| WiFiMacAddress.                         (* WiFi.macAddress(mac) *)

(** The [while] that waits for the access point: one entry of [polls] per
    call of [WiFi.status()], [true] when it answers [WL_CONNECTED].  The
    flag tells whether the loop was left. *)
Fixpoint wifi_wait (polls : list bool) : list setup_event * bool :=
  match polls with
  | [] => ([], false)
  | connected :: rest =>
      if connected then ([WiFiStatus], true)
      else
        let (t, left) := wifi_wait rest in
        (WiFiStatus :: Sketch (Delay 500) :: Sketch (Print ".") :: t, left)
  end.

Section SetupNetwork.

(** [WLAN] and [WPA] come from [wifi_credentials.h], which is not part of the
    sources. *)
Variables WLAN WPA : string.
Variable String16 : Byte.byte -> string.

(** From [Serial.begin] to the print of the identity.  [uid] is the global
    as it stands, [mac] what [WiFi.macAddress] writes; the result is the new
    [uid], or [None] while the access point is not reached. *)
Definition setup_network (uid : string) (polls : list bool)
    (mac : list Byte.byte) : list setup_event * option string :=
  let banner :=
    [SerialBegin 9600; Sketch (Delay 10);
     Sketch (Print "DistanceSenso v"); Sketch (Print VERSION);
     Sketch (Println " booting up");
     Sketch (Print "[WiFi] Connecting to "); Sketch (Print WLAN);
     Sketch (Print " ");
     WiFiBegin WLAN WPA] in
  let (waiting, left) := wifi_wait polls in
  if left then
    let uid := String.append uid (macToStr String16 mac) in
    (banner ++ waiting
       ++ [Sketch (Println ""); Sketch (Print "[WiFi] WiFi connected: ");
           PrintlnLocalIP; WiFiMacAddress;
           Sketch (Print "[WiFi] Mac address: "); Sketch (Println uid)],
     Some uid)
  else (banner ++ waiting, None).

(** All of [setup], from power-on: the network half, then the pins, the
    broker address and the state values of [setup] above. *)
Definition setup_from_power_on (polls : list bool) (mac : list Byte.byte)
    : list setup_event * machine * option string :=
  match setup_network "" polls mac with
  | (t, Some uid) => (t ++ map Sketch (trace_of (setup boot)), machine_of (setup boot), Some uid)
  | (t, None) => (t, boot, None)
  end.

End SetupNetwork.

Definition is_wifi_wait (e : setup_event) : bool :=
  match e with Sketch (Delay ms) => ms =? 500 | _ => false end.

Definition is_wifi_poll (e : setup_event) : bool :=
  match e with WiFiStatus => true | _ => false end.

Definition is_pin_or_broker_setup (e : setup_event) : bool :=
  match e with
  | Sketch (PinMode _ _) | Sketch (SetServer _ _) => true
  | _ => false
  end.

Definition is_setup_digital_write (e : setup_event) : bool :=
  match e with Sketch e' => is_digital_write e' | _ => false end.

(** ** Vocabulary of the further properties *)

(** Events only [reconnect] causes: a connect attempt, the backoff, the
    announcement. *)
Definition is_session_event (e : event) : bool :=
  match e with
  | Connect _ => true
  | Delay ms => ms =? 5000
  | Publish _ _ => is_online e
  | _ => false
  end.

(** The state-change message for turning to [open]. *)
Definition edge_message (open : bool) : event :=
  Publish MQTT_TOPIC (if open then "garage_opened" else "garage_closed").

(** The messages a sequence of door states causes after the state [prev]. *)
Fixpoint edge_messages (prev : bool) (states : list bool) : list event :=
  match states with
  | [] => []
  | s :: rest =>
      (if Bool.eqb s prev then [] else [edge_message s]) ++ edge_messages s rest
  end.

(** [n] messages that alternate, the first one for turning to [open]. *)
Fixpoint alternating (open : bool) (n : nat) : list event :=
  match n with
  | O => []
  | S n' => edge_message open :: alternating (negb open) n'
  end.

(** Either no indicator has been written and the door has counted as open
    ever since, or the indicators show the previous door state. *)
Definition indicators_consistent (m : machine) : Prop :=
  (led_green m = None /\ led_red m = None /\ oldstate m = true)
  \/ indicators_show (oldstate m) m.

(** What a pass publishes, in order. *)
Definition publishes_of_pass (dtostrf : dht_float -> string) (m : machine)
    (i : tick_input) : list event :=
  (if in_connected i then [] else [Publish MQTT_TOPIC "sensor_online"])
  ++ (if fires m i
      then [Publish MQTT_SENSORS "ping";
            Publish MQTT_TEMP (dtostrf (in_temp i));
            Publish MQTT_HUMI (dtostrf (in_humi i))]
      else [])
  ++ (if Bool.eqb (door_open (in_raw i)) (oldstate m) then []
      else [edge_message (door_open (in_raw i))]).

Definition tick_reconnecting : tick_input :=
  {| in_connected := false;
     in_attempts := [{| suffix := 7; failure := Some (-2) |};
                     {| suffix := 8; failure := None |}];
     in_now := 10001; in_humi := DhtValue 553; in_temp := DhtValue 215;
     in_raw := 600 |}.

Definition tick_outage : tick_input :=
  {| in_connected := false;
     in_attempts := [{| suffix := 7; failure := Some (-2) |};
                     {| suffix := 8; failure := Some (-2) |}];
     in_now := 10001; in_humi := DhtValue 553; in_temp := DhtValue 215;
     in_raw := 600 |}.

Definition machine_before_wrap : machine :=
  set_last_msg_sent (Long.of_ulong 4294960000) booted.

(** The globals and pins after a first pass that saw the door closed. *)
Definition closed_after_first_pass : machine :=
  machine_of (first_pass dtostrf_5_2 (tick true 0 600)).

(** * Properties *)

(** ** The curve on some samples *)

Example roundf_cm_500 : roundf_cm 500 = FInt 22.
Proof. vm_compute. reflexivity. Qed.

Example roundf_cm_1 : roundf_cm 1 = FInt 10640.
Proof. vm_compute. reflexivity. Qed.

Example roundf_cm_543_544 : roundf_cm 543 = FInt 20 /\ roundf_cm 544 = FInt 19.
Proof. vm_compute. split; reflexivity. Qed.

Example roundf_cm_neg : roundf_cm 5000 = FInt (-6) /\ roundf_cm 1000000 = FInt (-10).
Proof. vm_compute. split; reflexivity. Qed.

(** ** One pass of [loop] in closed form *)

(** Unfolding the plumbing of the monad. *)
Ltac unfold_sketch :=
  unfold bind, ret, when, get, modify, stuck, emit, Serial_print,
    Serial_println, client_publish, delay, digitalWrite, pinMode,
    trace_of, machine_of, result_of in *.

(** [reconnect] leaves the globals alone, and what it does depends on the
    environment only. *)
Lemma reconnect_frame (attempts : list attempt) :
  forall (connected : bool) (m : machine),
    reconnect connected attempts m
    = (trace_of (reconnect connected attempts boot), m,
       result_of (reconnect connected attempts boot)).
Proof.
  induction attempts as [|a rest IH]; intros connected m.
  - destruct connected; reflexivity.
  - destruct connected; [reflexivity|].
    cbn [reconnect].
    destruct (failure a) as [rc|]; unfold_sketch; cbn;
      match goal with
      | |- context [reconnect ?c rest m] =>
          rewrite (IH c m), (IH c boot); cbn;
          destruct (reconnect c rest boot) as [[t m'] r]; reflexivity
      end.
Qed.

Lemma reconnect_returns (attempts : list attempt) :
  existsb (fun a => match failure a with None => true | Some _ => false end)
    attempts = true ->
  result_of (reconnect false attempts boot) = Some tt.
Proof.
  induction attempts as [|a rest IH]; cbn [existsb]; intros H.
  - discriminate.
  - cbn [reconnect]. destruct (failure a) as [rc|]; cbn in H.
    + specialize (IH H). unfold_sketch; cbn.
      destruct (reconnect false rest boot) as [[t m'] r]. exact IH.
    + unfold_sketch; cbn. destruct rest; reflexivity.
Qed.

Lemma loop_closed_form (dtostrf : dht_float -> string) (i : tick_input)
    (m : machine) :
  reaches_broker i = true ->
  loop dtostrf i m
  = (connect_trace i ++ ClientLoop :: telemetry_trace dtostrf m i
       ++ AnalogRead :: distance_trace m i ++ edge_trace m i ++ [Delay SLEEPMS],
     after_tick m i, Some tt).
Proof.
  intros Hreach. unfold loop, telemetry, connect_trace, reaches_broker in *.
  destruct (in_connected i); cbn [negb when orb] in *.
  - unfold telemetry_trace, distance_trace, edge_trace, after_tick, door_open, fires.
    destruct m as [os s od nd lm lr lg]; unfold_sketch; cbn.
    destruct (10000 <? _); cbn;
      destruct (fneq od _); cbn;
      destruct (fge _ 20); destruct os; cbn; reflexivity.
  - pose proof (reconnect_returns _ Hreach) as Hres.
    unfold bind at 1. rewrite reconnect_frame.
    unfold result_of in Hres. unfold trace_of.
    destruct (reconnect false (in_attempts i) boot) as [[t0 m0] r0].
    cbn in Hres; subst r0. cbn [fst snd].
    unfold telemetry_trace, distance_trace, edge_trace, after_tick, door_open, fires.
    destruct m as [os s od nd lm lr lg]; unfold_sketch; cbn.
    destruct (10000 <? _); cbn;
      destruct (fneq od _); cbn;
      destruct (fge _ 20); destruct os; cbn; reflexivity.
Qed.

(** While the broker cannot be reached the pass stays inside [reconnect]:
    nothing is sampled and no global changes. *)
Lemma loop_blocked (dtostrf : dht_float -> string) (i : tick_input)
    (m : machine) :
  reaches_broker i = false ->
  loop dtostrf i m = (connect_trace i, m, None).
Proof.
  intros Hreach. unfold reaches_broker in Hreach.
  apply orb_false_iff in Hreach. destruct Hreach as [Hc Hfail].
  assert (Hres : forall attempts,
             existsb (fun a => match failure a with None => true | Some _ => false end)
               attempts = false ->
             result_of (reconnect false attempts boot) = None).
  { induction attempts as [|a rest IH]; cbn [existsb]; intros H; [reflexivity|].
    apply orb_false_iff in H. destruct H as [Ha Hrest].
    cbn [reconnect]. destruct (failure a) as [rc|]; [|discriminate].
    specialize (IH Hrest). unfold_sketch; cbn.
    destruct (reconnect false rest boot) as [[t m'] r]. exact IH. }
  specialize (Hres _ Hfail).
  unfold loop, connect_trace. rewrite Hc. cbn [negb when].
  unfold bind at 1. rewrite reconnect_frame, Hres. reflexivity.
Qed.

Lemma machine_after_loop (dtostrf : dht_float -> string) (i : tick_input)
    (m : machine) :
  reaches_broker i = true ->
  machine_of (loop dtostrf i m) = after_tick m i
  /\ result_of (loop dtostrf i m) = Some tt.
Proof.
  intros Hreach. rewrite (loop_closed_form _ _ _ Hreach). split; reflexivity.
Qed.

(** ** The calibration curve: the integer model against the real curve *)

Module CalibrationFacts.

Import Calibration CurveReal.

Lemma bpow_spec (b e : Z) : BigZ.to_Z (bpow b e) = b ^ e.
Proof. unfold bpow. rewrite BigZ.spec_pow, !BigZ.spec_of_Z. reflexivity. Qed.

Lemma below_with_spec (raw s t : Z) :
  below_with (bpow raw num) (bpow s den) t
  = (t ^ den * raw ^ num <=? s ^ den).
Proof.
  unfold below_with.
  rewrite BigZ.spec_leb, BigZ.spec_mul, !bpow_spec. reflexivity.
Qed.

Lemma exact_with_spec (raw s t : Z) :
  exact_with (bpow raw num) (bpow s den) t
  = (t ^ den * raw ^ num =? s ^ den).
Proof.
  unfold exact_with.
  rewrite BigZ.spec_eqb, BigZ.spec_mul, !bpow_spec. reflexivity.
Qed.

(** The bisection returns the last integer that is below. *)
Lemma bisect_spec (rp sp : bigZ) (fuel : nat) :
  forall lo hi : Z,
    lo < hi -> hi - lo <= 2 ^ Z.of_nat fuel ->
    below_with rp sp lo = true -> below_with rp sp hi = false ->
    lo <= bisect fuel rp sp lo hi < hi
    /\ below_with rp sp (bisect fuel rp sp lo hi) = true
    /\ below_with rp sp (bisect fuel rp sp lo hi + 1) = false.
Proof.
  induction fuel as [|fuel IH]; intros lo hi Hlt Hgap Hlo Hhi; cbn [bisect].
  - change (2 ^ Z.of_nat 0) with 1 in Hgap.
    replace (lo + 1) with hi by lia. repeat split; try lia; assumption.
  - destruct (Z.leb_spec (hi - lo) 1) as [Hone|Hmany].
    + replace (lo + 1) with hi by lia. repeat split; try lia; assumption.
    + rewrite Nat2Z.inj_succ, Z.pow_succ_r in Hgap by lia.
      assert (Hmid : 2 * ((lo + hi) / 2) <= lo + hi < 2 * ((lo + hi) / 2) + 2)
        by (Z.div_mod_to_equations; lia).
      cbv zeta.
      destruct (below_with rp sp ((lo + hi) / 2)) eqn:Hm.
      * destruct (IH ((lo + hi) / 2) hi) as (Hr & Hb & Hn);
          try assumption; try lia.
        repeat split; try assumption; lia.
      * destruct (IH lo ((lo + hi) / 2)) as (Hr & Hb & Hn);
          try assumption; try lia.
        repeat split; try assumption; lia.
Qed.

Lemma floor_y_spec (raw : Z) :
  1 <= raw ->
  0 <= floor_y raw
  /\ floor_y raw ^ den * raw ^ num <= scale ^ den
  /\ scale ^ den < (floor_y raw + 1) ^ den * raw ^ num.
Proof.
  intros Hraw. unfold floor_y.
  destruct (bisect_spec (bpow raw num) (bpow scale den) 22 0 (scale + 1))
    as (Hr & Hb & Hn).
  - unfold scale; lia.
  - vm_compute. discriminate.
  - rewrite below_with_spec. apply Z.leb_le.
    rewrite Z.pow_0_l by (unfold den; lia).
    rewrite Z.mul_0_l. apply Z.pow_nonneg. unfold scale; lia.
  - rewrite below_with_spec. apply Z.leb_gt.
    assert (H1 : 1 <= raw ^ num)
      by (change 1 with (1 ^ num) at 1; apply Z.pow_le_mono_l; unfold num; lia).
    assert (H2 : scale ^ den < (scale + 1) ^ den)
      by (apply Z.pow_lt_mono_l; unfold scale, den; lia).
    assert (H3 : 0 <= scale ^ den) by (apply Z.pow_nonneg; unfold scale; lia).
    nia.
  - rewrite below_with_spec in Hb, Hn.
    apply Z.leb_le in Hb. apply Z.leb_gt in Hn.
    repeat split; try assumption; lia.
Qed.

(** *** Real-number side *)

Local Open Scope R_scope.

Lemma pow_lt_mono (a b : R) (n : nat) :
  0 <= a < b -> (0 < n)%nat -> a ^ n < b ^ n.
Proof.
  intros [Ha Hab] Hn. induction n as [|n IH]; [inversion Hn|].
  destruct n as [|n].
  - rewrite !pow_1. exact Hab.
  - assert (IH' : a ^ S n < b ^ S n) by (apply IH; apply Nat.lt_0_succ).
    assert (H0 : 0 <= a ^ S n) by (apply pow_le; exact Ha).
    change (a * a ^ S n < b * b ^ S n). nra.
Qed.

Lemma pow_le_iff (a b : R) (n : nat) :
  0 <= a -> 0 <= b -> (0 < n)%nat -> (a <= b <-> a ^ n <= b ^ n).
Proof.
  intros Ha Hb Hn. split.
  - intros Hab. apply pow_incr. split; assumption.
  - intros Hpow. destruct (Rle_or_lt a b) as [Hab|Hba]; [exact Hab|].
    pose proof (pow_lt_mono b a n (conj Hb Hba) Hn). lra.
Qed.

Lemma root_pos (raw : Z) : 0 < root raw.
Proof. unfold root, Rpower. apply exp_pos. Qed.

Lemma root_pow (raw : Z) :
  (1 <= raw)%Z -> root raw ^ 200 = IZR (raw ^ num).
Proof.
  intros Hraw. assert (Hr : 0 < IZR raw) by (apply IZR_lt; lia).
  rewrite <- (Rpower_pow 200 _ (root_pos raw)).
  unfold root. rewrite Rpower_mult.
  replace (187 / 200 * INR 200) with (INR 187).
  - rewrite Rpower_pow by exact Hr. rewrite pow_IZR. reflexivity.
  - rewrite !INR_IZR_INZ. change (Z.of_nat 187) with 187%Z.
    change (Z.of_nat 200) with 200%Z. lra.
Qed.

Lemma y_root (raw : Z) : y raw * root raw = IZR scale.
Proof.
  unfold y, root. rewrite Rpower_Ropp.
  pose proof (root_pos raw) as Hpos. unfold root in Hpos.
  field. lra.
Qed.

Lemma y_pos (raw : Z) : 0 < y raw.
Proof.
  unfold y. apply Rmult_lt_0_compat.
  - apply IZR_lt. reflexivity.
  - unfold Rpower. apply exp_pos.
Qed.

(** The integer tests decide the comparisons with multiples of [y]. *)
Lemma le_cy_iff (raw t c : Z) :
  (1 <= raw)%Z -> (0 <= t)%Z -> (0 <= c)%Z ->
  (IZR t <= IZR c * y raw
   <-> (t ^ den * raw ^ num <= (c * scale) ^ den)%Z).
Proof.
  intros Hraw Ht Hc.
  pose proof (root_pos raw) as Hw. pose proof (y_root raw) as Hy.
  assert (Ht' : 0 <= IZR t) by (apply IZR_le; exact Ht).
  assert (Hc' : 0 <= IZR c) by (apply IZR_le; exact Hc).
  assert (Hs : 0 <= IZR scale) by (apply IZR_le; discriminate).
  assert (Hstep : IZR t <= IZR c * y raw
                  <-> IZR t * root raw <= IZR c * IZR scale).
  { rewrite <- Hy. split; intros H.
    - replace (IZR c * (y raw * root raw)) with (IZR c * y raw * root raw)
        by ring.
      apply Rmult_le_compat_r; lra.
    - apply Rmult_le_reg_r with (root raw); [lra|].
      replace (IZR c * y raw * root raw) with (IZR c * (y raw * root raw))
        by ring.
      exact H. }
  rewrite Hstep.
  rewrite (pow_le_iff (IZR t * root raw) (IZR c * IZR scale) 200);
    [| apply Rmult_le_pos; lra | apply Rmult_le_pos; lra | apply Nat.lt_0_succ].
  rewrite Rpow_mult_distr, root_pow by exact Hraw.
  rewrite <- (mult_IZR c scale), !pow_IZR, <- mult_IZR.
  change (Z.of_nat 200) with den.
  split; [apply le_IZR | apply IZR_le].
Qed.

Lemma le_y_iff (raw t : Z) :
  (1 <= raw)%Z -> (0 <= t)%Z ->
  (IZR t <= y raw <-> (t ^ den * raw ^ num <= scale ^ den)%Z).
Proof.
  intros Hraw Ht.
  pose proof (le_cy_iff raw t 1 Hraw Ht ltac:(lia)) as H.
  rewrite Rmult_1_l, Z.mul_1_l in H. exact H.
Qed.

Lemma ge_y_iff (raw t : Z) :
  (1 <= raw)%Z -> (0 <= t)%Z ->
  (y raw <= IZR t <-> (scale ^ den <= t ^ den * raw ^ num)%Z).
Proof.
  intros Hraw Ht.
  pose proof (root_pos raw) as Hw. pose proof (y_root raw) as Hy.
  assert (Ht' : 0 <= IZR t) by (apply IZR_le; exact Ht).
  assert (Hs : 0 <= IZR scale) by (apply IZR_le; discriminate).
  assert (Hstep : y raw <= IZR t <-> IZR scale <= IZR t * root raw).
  { rewrite <- Hy. split; intros H.
    - apply Rmult_le_compat_r; lra.
    - apply Rmult_le_reg_r with (root raw); lra. }
  rewrite Hstep.
  rewrite (pow_le_iff (IZR scale) (IZR t * root raw) 200);
    [| exact Hs | apply Rmult_le_pos; lra | apply Nat.lt_0_succ].
  rewrite Rpow_mult_distr, root_pow by exact Hraw.
  rewrite !pow_IZR, <- mult_IZR.
  change (Z.of_nat 200) with den.
  split; [apply le_IZR | apply IZR_le].
Qed.

Lemma floor_y_bounds (raw : Z) :
  (1 <= raw)%Z -> IZR (floor_y raw) <= y raw < IZR (floor_y raw) + 1.
Proof.
  intros Hraw. destruct (floor_y_spec raw Hraw) as (H0 & Hb & Hn).
  rewrite <- plus_IZR. split.
  - apply le_y_iff; assumption.
  - apply Rnot_le_lt. intros Hle.
    apply le_y_iff in Hle; [lia | exact Hraw | lia].
Qed.

Lemma floor_y_real (raw : Z) :
  (1 <= raw)%Z -> floor_y raw = Zfloor (y raw).
Proof.
  intros Hraw. symmetry. apply Zfloor_eq. apply floor_y_bounds. exact Hraw.
Qed.

Lemma ceil_y_real (raw : Z) :
  (1 <= raw)%Z -> ceil_y raw = Zceil (y raw).
Proof.
  intros Hraw. destruct (floor_y_spec raw Hraw) as (H0 & Hb & Hn).
  destruct (floor_y_bounds raw Hraw) as [Hlo Hhi].
  unfold ceil_y. rewrite exact_with_spec. symmetry. apply Zceil_eq.
  destruct (Z.eqb_spec (floor_y raw ^ den * raw ^ num) (scale ^ den))
    as [He|Hne].
  - assert (y raw <= IZR (floor_y raw)) by (apply ge_y_iff; [assumption..|lia]).
    lra.
  - rewrite plus_IZR. split; [|lra].
    apply Rnot_le_lt. intros Hle.
    assert (y raw <= IZR (floor_y raw)) as Hge by lra.
    apply ge_y_iff in Hge; [lia | exact Hraw | exact H0].
Qed.

Lemma cm_y (raw : Z) : Spec.cm raw = y raw / 200 - 10.
Proof.
  unfold Spec.cm, y, scale.
  replace (-0.935) with (- (187 / 200)) by lra. lra.
Qed.

(** Dividing under a floor. *)
Lemma Zfloor_div (x : R) (c k : Z) :
  (0 < k)%Z -> Zfloor ((x + IZR c) / IZR k) = ((Zfloor x + c) / k)%Z.
Proof.
  intros Hk. pose proof (Zfloor_bound x) as [Hlo Hhi].
  pose proof (Z.div_mod (Zfloor x + c) k ltac:(lia)) as Hdiv.
  pose proof (Z.mod_pos_bound (Zfloor x + c) k Hk) as [Hr0 Hr1].
  set (q := ((Zfloor x + c) / k)%Z) in *.
  set (r := ((Zfloor x + c) mod k)%Z) in *.
  assert (Hk' : 0 < IZR k) by (apply IZR_lt; exact Hk).
  assert (Hsum : IZR (Zfloor x) + IZR c = IZR k * IZR q + IZR r)
    by (rewrite <- plus_IZR, <- mult_IZR, <- plus_IZR; f_equal; exact Hdiv).
  assert (Hr0' : 0 <= IZR r) by (apply IZR_le; exact Hr0).
  assert (Hr1' : IZR r + 1 <= IZR k)
    by (rewrite <- plus_IZR; apply IZR_le; lia).
  apply Zfloor_eq. split.
  - apply Rmult_le_reg_r with (IZR k); [exact Hk'|].
    unfold Rdiv. rewrite Rmult_assoc, Rinv_l by lra. nra.
  - apply Rmult_lt_reg_r with (IZR k); [exact Hk'|].
    unfold Rdiv. rewrite Rmult_assoc, Rinv_l by lra. nra.
Qed.

(** The integer model computes the rounding of the real curve. *)
Lemma rounded_cm_real (raw : Z) :
  (1 <= raw)%Z -> rounded_cm raw = Spec.distance raw.
Proof.
  intros Hraw. unfold rounded_cm, Spec.distance, Spec.round.
  rewrite ceil_y_real, floor_y_real by exact Hraw.
  pose proof (Zfloor_bound (y raw)) as [Hlo Hhi].
  rewrite cm_y.
  destruct (Z.leb_spec 2000 (Zfloor (y raw))) as [Hge|Hlt];
    destruct (Rle_dec 0 (y raw / 200 - 10)) as [Hpos|Hneg].
  - replace (y raw / 200 - 10 + / 2) with ((y raw + IZR (-1900)) / IZR 200)
      by lra.
    rewrite Zfloor_div by lia. reflexivity.
  - exfalso. apply Hneg. apply IZR_le in Hge. lra.
  - exfalso.
    assert (H : IZR 2000 <= y raw) by lra.
    apply Zfloor_lub in H. lia.
  - replace (- (y raw / 200 - 10) + / 2) with ((- y raw + IZR 2100) / IZR 200)
      by lra.
    rewrite Zfloor_div by lia. rewrite ZfloorN. f_equal. f_equal. lia.
Qed.

End CalibrationFacts.

(** ** Room for floating-point error

    The sketch evaluates the curve in floating point.  On every sample of the
    10-bit ADC for which the curve is finite, any value within a relative
    error of [2^-17] of the exact curve rounds to the distance of the model;
    single precision is accurate to [2^-24]. *)

Module CalibrationMargin.

Import Calibration CurveReal CalibrationFacts Margin.

Lemma adc_samples_ok : forallb margin_ok adc_samples = true.
Proof. vm_compute. reflexivity. Qed.

Lemma adc_samples_in (raw : Z) : 1 <= raw <= 1024 -> In raw adc_samples.
Proof.
  intros Hraw. unfold adc_samples. apply in_map_iff.
  exists (Z.to_nat raw). split.
  - apply Z2Nat.id. lia.
  - apply in_seq. lia.
Qed.

Lemma margin_ok_true (raw : Z) :
  margin_ok raw = true ->
  1 <= rounded_cm raw
  /\ below_scaled raw ((200 * rounded_cm raw + 1900) * slack) (slack - 1) = true
  /\ below_scaled raw ((200 * rounded_cm raw + 2100) * slack) (slack + 1) = false.
Proof.
  unfold margin_ok. cbv zeta.
  destruct (Z.leb_spec 1 (rounded_cm raw)) as [Hn|Hn]; [|discriminate].
  destruct (below_scaled raw ((200 * rounded_cm raw + 1900) * slack) (slack - 1));
    [|discriminate].
  intros Hup. apply negb_true_iff in Hup. repeat split; assumption.
Qed.

Local Open Scope R_scope.

Lemma below_scaled_iff (raw a c : Z) :
  (1 <= raw)%Z -> (0 <= a)%Z -> (0 <= c)%Z ->
  (below_scaled raw a c = true <-> IZR a <= IZR c * y raw).
Proof.
  intros Hraw Ha Hc. unfold below_scaled.
  rewrite below_with_spec, Z.leb_le. symmetry.
  apply le_cy_iff; assumption.
Qed.

Lemma margin_ok_real (raw : Z) :
  (1 <= raw)%Z -> margin_ok raw = true ->
  1 <= IZR (rounded_cm raw)
  /\ IZR ((200 * rounded_cm raw + 1900) * slack) <= IZR (slack - 1) * y raw
  /\ IZR (slack + 1) * y raw < IZR ((200 * rounded_cm raw + 2100) * slack).
Proof.
  intros Hraw Hok. destruct (margin_ok_true raw Hok) as (Hn & Hlo & Hup).
  assert (Ha : (0 <= (200 * rounded_cm raw + 1900) * slack)%Z)
    by (clear - Hn; unfold slack; lia).
  assert (Hb : (0 <= (200 * rounded_cm raw + 2100) * slack)%Z)
    by (clear - Hn; unfold slack; lia).
  assert (Hc : (0 <= slack - 1)%Z) by (clear; unfold slack; lia).
  assert (Hd : (0 <= slack + 1)%Z) by (clear; unfold slack; lia).
  split; [apply IZR_le; exact Hn|]. split.
  - exact (proj1 (below_scaled_iff raw _ _ Hraw Ha Hc) Hlo).
  - apply Rnot_le_lt. intros Hle.
    pose proof (proj2 (below_scaled_iff raw _ _ Hraw Hb Hd) Hle) as Htrue.
    rewrite Hup in Htrue. discriminate Htrue.
Qed.

Theorem calibration_margin (raw : Z) (x : R) :
  (1 <= raw <= 1024)%Z ->
  Rabs (x - Spec.cm raw) <= (Spec.cm raw + 10) / IZR slack ->
  Spec.round x = rounded_cm raw.
Proof.
  intros Hraw Hx.
  pose proof (proj1 (forallb_forall _ _) adc_samples_ok raw
                (adc_samples_in raw Hraw)) as Hok.
  destruct (margin_ok_real raw ltac:(lia) Hok) as (Hn & Hlo & Hup).
  pose proof (y_pos raw) as Hy.
  rewrite cm_y in Hx.
  replace (y raw / 200 - 10 + 10) with (y raw / 200) in Hx by lra.
  revert Hlo Hup Hx. unfold slack.
  repeat (rewrite mult_IZR || rewrite plus_IZR || rewrite minus_IZR).
  intros Hlo Hup Hx.
  assert (Hx12 : - (y raw / 200 / 131072) <= x - (y raw / 200 - 10)
                 <= y raw / 200 / 131072)
    by (unfold Rabs in Hx; destruct (Rcase_abs _); lra).
  assert (Hlow : IZR (rounded_cm raw) - / 2 <= x) by lra.
  assert (Hhigh : x < IZR (rounded_cm raw) + / 2) by lra.
  unfold Spec.round. destruct (Rle_dec 0 x) as [_|Hneg]; [|lra].
  apply Zfloor_eq. lra.
Qed.

End CalibrationMargin.

(** ** Classification *)

Lemma roundf_cm_positive (raw : Z) :
  1 <= raw -> roundf_cm raw = FInt (Spec.distance raw).
Proof.
  intros Hraw. unfold roundf_cm.
  destruct (Z.ltb_spec raw 0); [lia|].
  destruct (Z.eqb_spec raw 0); [lia|].
  rewrite CalibrationFacts.rounded_cm_real by exact Hraw. reflexivity.
Qed.

(** With the reference calibration the door is OPEN up to the sample 543. *)
Lemma door_open_threshold (raw : Z) :
  1 <= raw -> door_open raw = (raw <=? 543).
Proof.
  intros Hraw. unfold door_open, roundf_cm.
  destruct (Z.ltb_spec raw 0) as [Hneg|_]; [lia|].
  destruct (Z.eqb_spec raw 0) as [Hz|_]; [lia|].
  cbn [fge]. unfold Calibration.rounded_cm.
  destruct (CalibrationFacts.floor_y_spec raw Hraw) as (H0 & Hb & Hn).
  assert (Hceil : Calibration.floor_y raw <= Calibration.ceil_y raw
                  <= Calibration.floor_y raw + 1).
  { unfold Calibration.ceil_y. destruct (Calibration.exact_with _ _ _); lia. }
  set (t := Calibration.floor_y raw) in *.
  assert (Hp : 0 < raw ^ Calibration.num)
    by (apply Z.pow_pos_nonneg; unfold Calibration.num; lia).
  (* [t >= 5900] exactly when 5900 is below y *)
  assert (Hkey : 5900 <= t
                 <-> 5900 ^ Calibration.den * raw ^ Calibration.num
                     <= Calibration.scale ^ Calibration.den).
  { split; intros Hx.
    - assert (5900 ^ Calibration.den <= t ^ Calibration.den)
        by (apply Z.pow_le_mono_l; lia).
      nia.
    - destruct (Z.le_gt_cases 5900 t) as [|Hlt]; [assumption|exfalso].
      assert ((t + 1) ^ Calibration.den <= 5900 ^ Calibration.den)
        by (apply Z.pow_le_mono_l; lia).
      nia. }
  (* and 5900 is below y exactly up to the sample 543 *)
  assert (Hraw543 : 5900 ^ Calibration.den * raw ^ Calibration.num
                    <= Calibration.scale ^ Calibration.den
                    <-> raw <= 543).
  { assert (H543 : Calibration.below_with
                     (Calibration.bpow 543 Calibration.num)
                     (Calibration.bpow Calibration.scale Calibration.den) 5900
                   = true) by (vm_compute; reflexivity).
    assert (H544 : Calibration.below_with
                     (Calibration.bpow 544 Calibration.num)
                     (Calibration.bpow Calibration.scale Calibration.den) 5900
                   = false) by (vm_compute; reflexivity).
    rewrite CalibrationFacts.below_with_spec in H543, H544.
    apply Z.leb_le in H543. apply Z.leb_gt in H544.
    assert (H59 : 0 < 5900 ^ Calibration.den)
      by (apply Z.pow_pos_nonneg; unfold Calibration.den; lia).
    split; intros Hx.
    - destruct (Z.le_gt_cases raw 543) as [|Hgt]; [assumption|exfalso].
      assert (544 ^ Calibration.num <= raw ^ Calibration.num)
        by (apply Z.pow_le_mono_l; lia).
      nia.
    - assert (raw ^ Calibration.num <= 543 ^ Calibration.num)
        by (apply Z.pow_le_mono_l; lia).
      nia. }
  cbv zeta.
  destruct (Z.leb_spec 2000 t) as [Hge|Hlt].
  - destruct (Z.leb_spec 20 ((t - 1900) / 200)) as [H20|H20];
      destruct (Z.leb_spec raw 543) as [Hr|Hr]; try reflexivity; exfalso;
      Z.div_mod_to_equations; lia.
  - destruct (Z.leb_spec 20 (- ((2100 - Calibration.ceil_y raw) / 200))) as [H20|H20];
      destruct (Z.leb_spec raw 543) as [Hr|Hr]; try reflexivity; exfalso;
      Z.div_mod_to_equations; lia.
Qed.

(** ** Traces of [reconnect] *)

Lemma filter_none {A : Type} (P : A -> bool) (l : list A) :
  Forall (fun x => P x = false) l -> filter P l = [].
Proof.
  induction 1 as [|x l Hx _ IH]; cbn; [reflexivity|].
  rewrite Hx. exact IH.
Qed.

Lemma reconnect_events (attempts : list attempt) :
  forall connected : bool,
    Forall (fun e => is_reconnect_event e = true)
      (trace_of (reconnect connected attempts boot)).
Proof.
  induction attempts as [|a rest IH]; intros connected.
  - destruct connected; constructor.
  - destruct connected; [constructor|].
    cbn [reconnect].
    destruct (failure a) as [rc|];
      match goal with
      | |- context [reconnect ?c rest] =>
          specialize (IH c); unfold_sketch; cbn;
          destruct (reconnect c rest boot) as [[t m'] r]; cbn in *;
          repeat (constructor; [reflexivity|]); exact IH
      end.
Qed.

Lemma connect_trace_filter (P : event -> bool) (i : tick_input) :
  (forall e, is_reconnect_event e = true -> P e = false) ->
  filter P (connect_trace i) = [].
Proof.
  intros HP. apply filter_none. unfold connect_trace.
  destruct (in_connected i); [constructor|].
  eapply Forall_impl; [|apply reconnect_events]. exact HP.
Qed.

(** A reconnect event that is a publish is the announcement. *)
Ltac reconnect_event_cases :=
  let e := fresh "e" in
  let He := fresh "He" in
  intros e He; destruct e as [| | | | |t p| | | | | | | |]; cbn in He |- *;
  try reflexivity; try discriminate;
  try (apply andb_true_iff in He; destruct He as [Ht Hp];
       apply String.eqb_eq in Ht; apply String.eqb_eq in Hp; subst t p;
       reflexivity).

Lemma reconnect_no_state_change :
  forall e, is_reconnect_event e = true -> is_state_change e = false.
Proof. reconnect_event_cases. Qed.

Lemma reconnect_no_ping :
  forall e, is_reconnect_event e = true -> is_ping e = false.
Proof. reconnect_event_cases. Qed.

Lemma reconnect_no_distance_log :
  forall e, is_reconnect_event e = true -> is_distance_log e = false.
Proof. reconnect_event_cases. Qed.

Lemma reconnect_no_analog_read :
  forall e, is_reconnect_event e = true -> is_analog_read e = false.
Proof. reconnect_event_cases. Qed.

Lemma reconnect_no_telemetry (topic : string) :
  topic = MQTT_TEMP \/ topic = MQTT_HUMI ->
  forall e, is_reconnect_event e = true -> publish_on topic e = false.
Proof. intros [-> | ->]; reconnect_event_cases. Qed.

Lemma reconnect_no_digital_write :
  forall e, is_reconnect_event e = true -> is_digital_write e = false.
Proof. reconnect_event_cases. Qed.

Lemma reconnect_no_telemetry_publish :
  forall e, is_reconnect_event e = true -> is_telemetry e = false.
Proof. reconnect_event_cases. Qed.

(** ** Messages of one pass *)

Lemma state_changes_loop (dtostrf : dht_float -> string) (i : tick_input)
    (m : machine) :
  reaches_broker i = true ->
  state_changes (trace_of (loop dtostrf i m))
  = if Bool.eqb (door_open (in_raw i)) (oldstate m) then []
    else if door_open (in_raw i)
         then [Publish MQTT_TOPIC "garage_opened"]
         else [Publish MQTT_TOPIC "garage_closed"].
Proof.
  intros Hreach. rewrite (loop_closed_form _ _ _ Hreach).
  unfold trace_of, state_changes; cbn [fst].
  rewrite filter_app, (connect_trace_filter _ _ reconnect_no_state_change).
  unfold telemetry_trace, distance_trace, edge_trace.
  destruct (fires m i); destruct (fneq _ _);
    destruct (door_open (in_raw i)); destruct (oldstate m); reflexivity.
Qed.

Lemma distance_log_loop (dtostrf : dht_float -> string) (i : tick_input)
    (m : machine) :
  reaches_broker i = true ->
  filter is_distance_log (trace_of (loop dtostrf i m))
  = if fneq (olddistance m) (roundf_cm (in_raw i))
    then [PrintlnFloat (roundf_cm (in_raw i))] else [].
Proof.
  intros Hreach. rewrite (loop_closed_form _ _ _ Hreach).
  unfold trace_of; cbn [fst].
  rewrite filter_app, (connect_trace_filter _ _ reconnect_no_distance_log).
  unfold telemetry_trace, distance_trace, edge_trace.
  destruct (fires m i); destruct (fneq _ _);
    destruct (door_open (in_raw i)); destruct (oldstate m); reflexivity.
Qed.

(** ** The first pass after boot *)

(** C1, as stated, fails: [setup] starts [oldstate] at [true], so a door seen
    closed on the first pass (sample 600, 17 cm) is reported as an edge and
    ["garage_closed"] is published. *)
Lemma C1_first_pass_closed_publishes :
  ~ first_pass_silent dtostrf_5_2 (tick true 0 600).
Proof. unfold first_pass_silent. vm_compute. discriminate. Qed.

(** C1, amended: the first pass compares against the baseline OPEN that
    [setup] fixes.  A door first seen open causes no state-change message; a
    door first seen closed causes exactly ["garage_closed"].  Either way the
    pass completes and the observed state and distance become the previous
    ones for the next pass. *)
Theorem C1_first_pass_baseline_open (dtostrf : dht_float -> string)
    (i : tick_input) :
  reaches_broker i = true ->
  result_of (first_pass dtostrf i) = Some tt
  /\ state_changes (trace_of (first_pass dtostrf i))
     = (if door_open (in_raw i) then []
        else [Publish MQTT_TOPIC "garage_closed"])
  /\ oldstate (machine_of (first_pass dtostrf i)) = door_open (in_raw i)
  /\ olddistance (machine_of (first_pass dtostrf i)) = roundf_cm (in_raw i).
Proof.
  intros Hreach. unfold first_pass.
  destruct (machine_after_loop dtostrf i booted Hreach)
    as [Hm Hr].
  rewrite (state_changes_loop _ _ _ Hreach), Hm, Hr.
  repeat split. cbn. destruct (door_open (in_raw i)); reflexivity.
Qed.

Lemma C1_first_pass_baseline_open_witness :
  state_changes (trace_of (first_pass dtostrf_5_2 (tick true 0 500))) = []
  /\ state_changes (trace_of (first_pass dtostrf_5_2 (tick true 0 600)))
     = [Publish MQTT_TOPIC "garage_closed"].
Proof.
  split.
  - exact (proj1 (proj2 (C1_first_pass_baseline_open dtostrf_5_2
                           (tick true 0 500) eq_refl))).
  - exact (proj1 (proj2 (C1_first_pass_baseline_open dtostrf_5_2
                           (tick true 0 600) eq_refl))).
Defined.

(** ** The sample 0 *)

(** C2, as stated, fails: nothing special-cases the sample 0.  [pow] returns
    [+inf], the comparison [newdistance >= 20] holds, and the door is
    classified OPEN. *)
Lemma C2_sample_zero_not_closed :
  ~ classified_closed dtostrf_5_2 booted (tick true 0 0).
Proof. unfold classified_closed. vm_compute. discriminate. Qed.

(** C2, amended: on the sample 0 the pass completes, the distance is
    [+inf], it is stored as such, and logged as such unless the previous
    distance was [+inf] already, and the door is classified OPEN. *)
Theorem C2_sample_zero_is_open (dtostrf : dht_float -> string) (m : machine)
    (i : tick_input) :
  reaches_broker i = true ->
  in_raw i = 0 ->
  result_of (loop dtostrf i m) = Some tt
  /\ state (machine_of (loop dtostrf i m)) = true
  /\ oldstate (machine_of (loop dtostrf i m)) = true
  /\ olddistance (machine_of (loop dtostrf i m)) = FInf false
  /\ filter is_distance_log (trace_of (loop dtostrf i m))
     = if fneq (olddistance m) (FInf false)
       then [PrintlnFloat (FInf false)] else [].
Proof.
  intros Hreach Hraw.
  destruct (machine_after_loop dtostrf i m Hreach) as [Hm Hr].
  rewrite (distance_log_loop _ _ _ Hreach), Hm, Hr.
  unfold after_tick. cbn [state oldstate olddistance].
  rewrite Hraw. repeat split.
Qed.

Lemma C2_sample_zero_is_open_witness :
  state (machine_of (loop dtostrf_5_2 (tick true 0 0) booted)) = true
  /\ olddistance (machine_of (loop dtostrf_5_2 (tick true 0 0) booted)) = FInf false.
Proof.
  pose proof (C2_sample_zero_is_open dtostrf_5_2 booted (tick true 0 0)
                eq_refl eq_refl) as (_ & Hs & _ & Hd & _).
  exact (conj Hs Hd).
Defined.

(** ** Distance and door state of a positive sample *)

(** C3: for a sample of at least 1 the distance kept by the pass is the
    rounding of [10650.08 * raw^(-0.935) - 10], and the door is OPEN exactly
    when that distance is at least 20; the sample 500 is classified OPEN. *)
Theorem C3_distance_and_door_state (dtostrf : dht_float -> string)
    (m : machine) (i : tick_input) :
  reaches_broker i = true ->
  1 <= in_raw i ->
  olddistance (machine_of (loop dtostrf i m)) = FInt (Spec.distance (in_raw i))
  /\ state (machine_of (loop dtostrf i m)) = (20 <=? Spec.distance (in_raw i))
  /\ (in_raw i = 500 -> state (machine_of (loop dtostrf i m)) = true).
Proof.
  intros Hreach Hraw.
  destruct (machine_after_loop dtostrf i m Hreach) as [Hm _].
  rewrite Hm. unfold after_tick. cbn [state olddistance].
  unfold door_open. rewrite (roundf_cm_positive _ Hraw). cbn [fge].
  repeat split.
  intros H500. rewrite <- (CalibrationFacts.rounded_cm_real _ Hraw), H500.
  vm_compute. reflexivity.
Qed.

Lemma C3_distance_and_door_state_witness :
  olddistance (machine_of (loop dtostrf_5_2 (tick true 0 500) booted))
  = FInt (Spec.distance 500)
  /\ state (machine_of (loop dtostrf_5_2 (tick true 0 500) booted)) = true.
Proof.
  assert (H1 : 1 <= in_raw (tick true 0 500)) by (simpl; lia).
  pose proof (C3_distance_and_door_state dtostrf_5_2 booted (tick true 0 500)
                eq_refl H1) as (Hd & _ & Hs).
  exact (conj Hd (Hs eq_refl)).
Defined.

(** ** Edges between consecutive passes *)

(** C4: on a pass that follows another one, a state-change message is
    published exactly when the door state differs from the one of the pass
    before: ["garage_opened"] from CLOSED to OPEN, ["garage_closed"] from OPEN
    to CLOSED, one message and no more, and none when the state is the same.
    Every pass stores its state and distance as the previous ones, edge or
    not. *)
Theorem C4_edge_iff_state_differs (dtostrf : dht_float -> string)
    (m : machine) (i1 i2 : tick_input) :
  reaches_broker i1 = true ->
  reaches_broker i2 = true ->
  let m1 := machine_of (loop dtostrf i1 m) in
  let r2 := loop dtostrf i2 m1 in
  oldstate m1 = door_open (in_raw i1)
  /\ olddistance m1 = roundf_cm (in_raw i1)
  /\ result_of r2 = Some tt
  /\ state_changes (trace_of r2)
     = match door_open (in_raw i1), door_open (in_raw i2) with
       | false, true => [Publish MQTT_TOPIC "garage_opened"]
       | true, false => [Publish MQTT_TOPIC "garage_closed"]
       | _, _ => []
       end
  /\ oldstate (machine_of r2) = door_open (in_raw i2)
  /\ olddistance (machine_of r2) = roundf_cm (in_raw i2).
Proof.
  intros H1 H2 m1 r2. subst r2 m1.
  destruct (machine_after_loop dtostrf i1 m H1) as [Hm1 _].
  rewrite Hm1.
  destruct (machine_after_loop dtostrf i2 (after_tick m i1) H2) as [Hm2 Hr2].
  rewrite (state_changes_loop _ _ _ H2), Hm2, Hr2.
  cbn [after_tick oldstate olddistance].
  repeat split.
  destruct (door_open (in_raw i1)); destruct (door_open (in_raw i2)); reflexivity.
Qed.

Lemma C4_edge_iff_state_differs_witness :
  state_changes
    (trace_of (loop dtostrf_5_2 (tick true 900 500)
                 (machine_of (loop dtostrf_5_2 (tick true 0 600) booted))))
  = [Publish MQTT_TOPIC "garage_opened"]
  /\ state_changes
       (trace_of (loop dtostrf_5_2 (tick true 900 501)
                    (machine_of (loop dtostrf_5_2 (tick true 0 500) booted))))
     = [].
Proof.
  split.
  - exact (proj1 (proj2 (proj2 (proj2
      (C4_edge_iff_state_differs dtostrf_5_2 booted
         (tick true 0 600) (tick true 900 500) eq_refl eq_refl))))).
  - exact (proj1 (proj2 (proj2 (proj2
      (C4_edge_iff_state_differs dtostrf_5_2 booted
         (tick true 0 500) (tick true 900 501) eq_refl eq_refl))))).
Defined.

(** ** The telemetry scheduler *)

Lemma long_sub_exact (now last : Z) :
  0 <= now < Long.half_modulus ->
  0 <= last < Long.half_modulus ->
  Long.of_ulong now = now /\ Long.sub (Long.of_ulong now) last = now - last.
Proof.
  unfold Long.sub, Long.of_ulong, Long.wrap, Long.modulus, Long.half_modulus.
  intros Hnow Hlast.
  rewrite (Z.mod_small (now + 2 ^ 31)) by lia.
  replace (now + 2 ^ 31 - 2 ^ 31) with now by lia.
  rewrite Z.mod_small by lia. lia.
Qed.

Lemma pings_loop (dtostrf : dht_float -> string) (i : tick_input) (m : machine) :
  reaches_broker i = true ->
  pings (trace_of (loop dtostrf i m))
  = if fires m i then [Publish MQTT_SENSORS "ping"] else [].
Proof.
  intros Hreach. rewrite (loop_closed_form _ _ _ Hreach).
  unfold trace_of, pings; cbn [fst].
  rewrite filter_app, (connect_trace_filter _ _ reconnect_no_ping).
  unfold telemetry_trace, distance_trace, edge_trace.
  destruct (fires m i); destruct (fneq _ _);
    destruct (door_open (in_raw i)); destruct (oldstate m); reflexivity.
Qed.

Lemma run_cons (dtostrf : dht_float -> string) (i : tick_input)
    (rest : list tick_input) (m : machine) :
  reaches_broker i = true ->
  trace_of (run dtostrf (i :: rest) m)
  = trace_of (loop dtostrf i m)
      ++ trace_of (run dtostrf rest (machine_of (loop dtostrf i m))).
Proof.
  intros Hreach. cbn [run]. unfold bind.
  rewrite (loop_closed_form _ _ _ Hreach).
  unfold machine_of, trace_of; cbn [fst snd].
  destruct (run dtostrf rest (after_tick m i)) as [[t m'] r]. reflexivity.
Qed.

(** Once the last fire lies in the window, nothing fires in the window. *)
Lemma window_quiet (dtostrf : dht_float -> string) (w : Z)
    (ticks : list tick_input) :
  0 <= w -> w + 10000 < Long.half_modulus ->
  Forall (fun i => reaches_broker i = true) ticks ->
  within_window w ticks ->
  forall m : machine,
    w <= last_msg_sent m <= w + 10000 ->
    pings (trace_of (run dtostrf ticks m)) = [].
Proof.
  intros Hw0 Hw1 Hreach Hwin.
  induction ticks as [|i rest IH]; intros m Hlast; [reflexivity|].
  inversion Hreach as [|? ? Hi Hrest]; subst.
  inversion Hwin as [|? ? Hnow Hwrest]; subst.
  rewrite (run_cons _ _ _ _ Hi). unfold pings in *. rewrite filter_app.
  fold (pings (trace_of (loop dtostrf i m))). rewrite (pings_loop _ _ _ Hi).
  destruct (machine_after_loop dtostrf i m Hi) as [Hm _]. rewrite Hm.
  assert (Hquiet : fires m i = false).
  { unfold fires.
    destruct (long_sub_exact (in_now i) (last_msg_sent m)) as [_ ->];
      [lia | lia |]. apply Z.ltb_ge. lia. }
  rewrite Hquiet. cbn [app]. apply IH; try assumption.
  unfold after_tick; cbn [last_msg_sent]. rewrite Hquiet. exact Hlast.
Qed.

Lemma window_at_most_one (dtostrf : dht_float -> string) (w : Z)
    (ticks : list tick_input) :
  0 <= w -> w + 10000 < Long.half_modulus ->
  Forall (fun i => reaches_broker i = true) ticks ->
  within_window w ticks ->
  forall m : machine,
    0 <= last_msg_sent m < Long.half_modulus ->
    (List.length (pings (trace_of (run dtostrf ticks m))) <= 1)%nat.
Proof.
  intros Hw0 Hw1 Hreach Hwin.
  induction ticks as [|i rest IH]; intros m Hlast; [cbn; lia|].
  inversion Hreach as [|? ? Hi Hrest]; subst.
  inversion Hwin as [|? ? Hnow Hwrest]; subst.
  rewrite (run_cons _ _ _ _ Hi). unfold pings in *. rewrite filter_app.
  fold (pings (trace_of (loop dtostrf i m))). rewrite (pings_loop _ _ _ Hi).
  destruct (machine_after_loop dtostrf i m Hi) as [Hm _]. rewrite Hm.
  destruct (long_sub_exact (in_now i) (last_msg_sent m)) as [Hnow' _];
    [lia | lia |].
  destruct (fires m i) eqn:Hf.
  - fold (pings (trace_of (run dtostrf rest (after_tick m i)))).
    rewrite (window_quiet dtostrf w rest); try assumption; [cbn; lia|].
    unfold after_tick; cbn [last_msg_sent]. rewrite Hf, Hnow'. exact Hnow.
  - cbn [app]. apply IH; try assumption.
    unfold after_tick; cbn [last_msg_sent]. rewrite Hf. exact Hlast.
Qed.

(** C5, as stated, fails: the test is [now - last_msg_sent > 10000], so
    a pass that comes exactly 10000 ms after the last fire does not fire. *)
Lemma C5_no_fire_at_exactly_interval :
  ~ fires_from_interval dtostrf_5_2 booted (tick true 10000 500).
Proof.
  intros [Hfire _]. apply Hfire.
  - vm_compute. discriminate.
  - vm_compute. reflexivity.
Qed.

(** C5, amended: while the millisecond clock is below 2^31, the scheduler
    fires on a pass exactly when more than 10000 ms have elapsed since the
    last fire; a fire publishes one ping, however large the jump, and sets
    [last_msg_sent] to [now]; otherwise [last_msg_sent] is kept.  Hence among
    passes whose clock values lie within one window of 10000 ms at most one
    fires. *)
Theorem C5_scheduler_fires_after_interval (dtostrf : dht_float -> string)
    (m : machine) :
  0 <= last_msg_sent m < Long.half_modulus ->
  (forall i : tick_input,
      reaches_broker i = true ->
      0 <= in_now i < Long.half_modulus ->
      (10000 < in_now i - last_msg_sent m ->
       pings (trace_of (loop dtostrf i m)) = [Publish MQTT_SENSORS "ping"]
       /\ last_msg_sent (machine_of (loop dtostrf i m)) = in_now i)
      /\ (in_now i - last_msg_sent m <= 10000 ->
          pings (trace_of (loop dtostrf i m)) = []
          /\ last_msg_sent (machine_of (loop dtostrf i m)) = last_msg_sent m))
  /\ (forall (w : Z) (ticks : list tick_input),
         0 <= w -> w + 10000 < Long.half_modulus ->
         Forall (fun i => reaches_broker i = true) ticks ->
         within_window w ticks ->
         (List.length (pings (trace_of (run dtostrf ticks m))) <= 1)%nat).
Proof.
  intros Hlast. split.
  - intros i Hreach Hnow.
    destruct (long_sub_exact _ _ Hnow Hlast) as [Hof Hsub].
    destruct (machine_after_loop dtostrf i m Hreach) as [Hm _].
    rewrite (pings_loop _ _ _ Hreach), Hm.
    unfold after_tick; cbn [last_msg_sent]. unfold fires. rewrite Hsub, Hof.
    split; intros Hel.
    + apply Z.ltb_lt in Hel. rewrite Hel. split; reflexivity.
    + apply Z.ltb_ge in Hel. rewrite Hel. split; reflexivity.
  - intros w ticks Hw0 Hw1 Hreach Hwin.
    apply (window_at_most_one dtostrf w); assumption.
Qed.

Lemma C5_scheduler_fires_after_interval_witness :
  pings (trace_of (loop dtostrf_5_2 (tick true 35000 500) booted))
  = [Publish MQTT_SENSORS "ping"]
  /\ last_msg_sent (machine_of (loop dtostrf_5_2 (tick true 35000 500) booted))
     = 35000
  /\ (List.length (pings (trace_of (run dtostrf_5_2
        [tick true 10001 500; tick true 10901 500; tick true 20001 500] booted)))
      <= 1)%nat.
Proof.
  assert (H0 : 0 <= last_msg_sent booted < Long.half_modulus) by (vm_compute; split; congruence).
  destruct (C5_scheduler_fires_after_interval dtostrf_5_2 booted H0) as [Htick Hwin].
  assert (Hnow : 0 <= in_now (tick true 35000 500) < Long.half_modulus)
    by (vm_compute; split; congruence).
  destruct (Htick (tick true 35000 500) eq_refl Hnow) as [Hfire _].
  assert (Hjump : 10000 < in_now (tick true 35000 500) - last_msg_sent booted)
    by (vm_compute; reflexivity).
  destruct (Hfire Hjump) as [Hp Hl].
  split; [exact Hp|]. split; [exact Hl|].
  apply (Hwin 10001).
  - lia.
  - vm_compute. reflexivity.
  - repeat constructor.
  - repeat constructor; cbn; lia.
Defined.

(** ** Reconnecting *)

Lemma reconnect_failures (fails : list (Z * Z)) (rest : list attempt)
    (m : machine) :
  reconnect false (map failed_attempt fails ++ rest) m
  = (flat_map failure_events fails ++ trace_of (reconnect false rest boot), m,
     result_of (reconnect false rest boot)).
Proof.
  induction fails as [|p fails IH].
  - cbn [map flat_map app]. apply reconnect_frame.
  - cbn [map flat_map app reconnect failed_attempt failure suffix].
    unfold_sketch. cbn. rewrite IH. reflexivity.
Qed.

Lemma publishes_failures (fails : list (Z * Z)) :
  publishes (flat_map failure_events fails) = [].
Proof.
  induction fails as [|p fails IH]; [reflexivity|].
  cbn [flat_map]. unfold publishes in *. rewrite filter_app, IH. reflexivity.
Qed.

Lemma backoffs_failures (fails : list (Z * Z)) :
  filter is_backoff (flat_map failure_events fails)
  = repeat (Delay 5000) (List.length fails).
Proof.
  induction fails as [|p fails IH]; [reflexivity|].
  cbn [flat_map]. rewrite filter_app, IH. reflexivity.
Qed.

(** C6: however many attempts fail, [reconnect] is still retrying, with a
    wait of 5000 ms after each failure; and when an attempt succeeds after
    any number of failures, [reconnect] returns, having published
    ["sensor_online"] once, right after that attempt and as its only
    message. *)
Theorem C6_reconnect_retries_until_success (fails : list (Z * Z)) (s : Z)
    (later : list attempt) (m : machine) :
  let blocked := reconnect false (map failed_attempt fails) m in
  let done :=
    reconnect false
      (map failed_attempt fails ++ {| suffix := s; failure := None |} :: later) m in
  result_of blocked = None
  /\ trace_of blocked = flat_map failure_events fails
  /\ filter is_backoff (trace_of blocked) = repeat (Delay 5000) (List.length fails)
  /\ result_of done = Some tt
  /\ trace_of done = flat_map failure_events fails ++ success_events s
  /\ publishes (trace_of done) = [Publish MQTT_TOPIC "sensor_online"]
  /\ filter is_backoff (trace_of done) = repeat (Delay 5000) (List.length fails).
Proof.
  intros blocked done. subst blocked done.
  pose proof (reconnect_failures fails [] m) as Hb.
  rewrite app_nil_r in Hb. cbn in Hb. rewrite app_nil_r in Hb.
  pose proof (reconnect_failures fails
                ({| suffix := s; failure := None |} :: later) m) as Hd.
  cbn [reconnect failure suffix] in Hd.
  replace (trace_of _) with (success_events s) in Hd
    by (destruct later; reflexivity).
  replace (result_of _) with (Some tt) in Hd
    by (destruct later; reflexivity).
  rewrite Hb, Hd. unfold trace_of, result_of; cbn [fst snd].
  repeat split.
  - apply backoffs_failures.
  - unfold publishes. rewrite filter_app.
    fold (publishes (flat_map failure_events fails)).
    rewrite publishes_failures. reflexivity.
  - rewrite filter_app, backoffs_failures. cbn. apply app_nil_r.
Qed.

(** ** What a fire publishes *)

Lemma telemetry_loop (dtostrf : dht_float -> string) (i : tick_input)
    (m : machine) :
  reaches_broker i = true ->
  fires m i = true ->
  trace_of (loop dtostrf i m)
  = (connect_trace i ++ [ClientLoop])
      ++ [Publish MQTT_SENSORS "ping"; ReadHumidity; ReadTemperature;
          Publish MQTT_TEMP (dtostrf (in_temp i));
          Publish MQTT_HUMI (dtostrf (in_humi i));
          Print "Temperature "; Println (dtostrf (in_temp i));
          Print "Humidity "; Println (dtostrf (in_humi i))]
      ++ AnalogRead :: (distance_trace m i ++ edge_trace m i ++ [Delay SLEEPMS]).
Proof.
  intros Hreach Hfire. rewrite (loop_closed_form _ _ _ Hreach).
  unfold trace_of, telemetry_trace; cbn [fst]. rewrite Hfire.
  rewrite <- app_assoc. reflexivity.
Qed.

(** C7: on a fire, whatever the two reads return, a NaN included, the
    pass publishes one message on the temperature topic and one on the
    humidity topic, each the formatted reading, and one ping. *)
Theorem C7_failed_reads_still_published (dtostrf : dht_float -> string)
    (m : machine) (i : tick_input) :
  reaches_broker i = true ->
  fires m i = true ->
  pings (trace_of (loop dtostrf i m)) = [Publish MQTT_SENSORS "ping"]
  /\ filter (publish_on MQTT_TEMP) (trace_of (loop dtostrf i m))
     = [Publish MQTT_TEMP (dtostrf (in_temp i))]
  /\ filter (publish_on MQTT_HUMI) (trace_of (loop dtostrf i m))
     = [Publish MQTT_HUMI (dtostrf (in_humi i))].
Proof.
  intros Hreach Hfire. split.
  - rewrite (pings_loop _ _ _ Hreach), Hfire. reflexivity.
  - rewrite (telemetry_loop _ _ _ Hreach Hfire).
    rewrite !filter_app.
    rewrite !(connect_trace_filter _ _
                (reconnect_no_telemetry _ (or_introl eq_refl))).
    rewrite !(connect_trace_filter _ _
                (reconnect_no_telemetry _ (or_intror eq_refl))).
    unfold distance_trace, edge_trace.
    destruct (fneq _ _); destruct (door_open (in_raw i));
      destruct (oldstate m); split; reflexivity.
Qed.

Lemma C7_failed_reads_still_published_witness :
  pings (trace_of (loop dtostrf_5_2 tick_humidity_failed booted))
  = [Publish MQTT_SENSORS "ping"]
  /\ filter (publish_on MQTT_TEMP)
       (trace_of (loop dtostrf_5_2 tick_humidity_failed booted))
     = [Publish MQTT_TEMP "21.50"]
  /\ filter (publish_on MQTT_HUMI)
       (trace_of (loop dtostrf_5_2 tick_humidity_failed booted))
     = [Publish MQTT_HUMI "nan"].
Proof.
  exact (C7_failed_reads_still_published dtostrf_5_2 booted tick_humidity_failed
           eq_refl eq_refl).
Defined.

(** ** The distance log *)

Lemma roundf_cm_not_nan (raw : Z) : 0 <= raw -> roundf_cm raw <> FNaN.
Proof.
  intros Hraw. unfold roundf_cm.
  destruct (Z.ltb_spec raw 0); [lia|].
  destruct (raw =? 0); discriminate.
Qed.

Lemma fneq_true_iff (a b : cfloat) :
  a <> FNaN -> b <> FNaN -> (fneq a b = true <-> a <> b).
Proof.
  intros Ha Hb.
  destruct a as [|s|x]; destruct b as [|t|y]; cbn;
    try contradiction; try (split; [discriminate | reflexivity]).
  - destruct s, t; cbn; split; congruence.
  - destruct (Z.eqb_spec x y); cbn; split; congruence.
Qed.

(** C8: on a pass that follows another one, with samples the ADC can
    deliver, the new distance is logged exactly when it differs from the
    distance of the pass before; whether the door state changed plays no
    part. *)
Theorem C8_distance_logged_iff_changed (dtostrf : dht_float -> string)
    (m : machine) (i1 i2 : tick_input) :
  reaches_broker i1 = true ->
  reaches_broker i2 = true ->
  0 <= in_raw i1 ->
  0 <= in_raw i2 ->
  let m1 := machine_of (loop dtostrf i1 m) in
  let t2 := trace_of (loop dtostrf i2 m1) in
  olddistance m1 = roundf_cm (in_raw i1)
  /\ (roundf_cm (in_raw i2) <> roundf_cm (in_raw i1) ->
      filter is_distance_log t2 = [PrintlnFloat (roundf_cm (in_raw i2))])
  /\ (roundf_cm (in_raw i2) = roundf_cm (in_raw i1) ->
      filter is_distance_log t2 = []).
Proof.
  intros H1 H2 Hraw1 Hraw2 m1 t2. subst t2 m1.
  destruct (machine_after_loop dtostrf i1 m H1) as [Hm1 _].
  rewrite Hm1, (distance_log_loop _ _ _ H2). cbn [after_tick olddistance].
  pose proof (fneq_true_iff (roundf_cm (in_raw i1)) (roundf_cm (in_raw i2))
                (roundf_cm_not_nan _ Hraw1) (roundf_cm_not_nan _ Hraw2)) as Hiff.
  split; [reflexivity|].
  destruct (fneq (roundf_cm (in_raw i1)) (roundf_cm (in_raw i2))); split.
  - reflexivity.
  - intros Heq. exfalso. apply (proj1 Hiff eq_refl). symmetry. exact Heq.
  - intros Hne. exfalso.
    assert (Hd : roundf_cm (in_raw i1) <> roundf_cm (in_raw i2)) by congruence.
    apply Hiff in Hd. discriminate.
  - reflexivity.
Qed.

(** Three runs: the distance moves without an edge (22 cm to 21 cm), with an
    edge (22 cm to 17 cm), and not at all. *)
Lemma C8_distance_logged_iff_changed_witness :
  filter is_distance_log
    (trace_of (loop dtostrf_5_2 (tick true 900 520)
                 (machine_of (loop dtostrf_5_2 (tick true 0 500) booted))))
  = [PrintlnFloat (FInt 21)]
  /\ filter is_distance_log
       (trace_of (loop dtostrf_5_2 (tick true 900 600)
                    (machine_of (loop dtostrf_5_2 (tick true 0 500) booted))))
     = [PrintlnFloat (FInt 17)]
  /\ filter is_distance_log
       (trace_of (loop dtostrf_5_2 (tick true 900 501)
                    (machine_of (loop dtostrf_5_2 (tick true 0 500) booted))))
     = [].
Proof.
  assert (Hraw : forall n, (0 <=? n) = true -> 0 <= n)
    by (intros n; apply Z.leb_le).
  split; [|split].
  - apply (C8_distance_logged_iff_changed dtostrf_5_2 booted
             (tick true 0 500) (tick true 900 520) eq_refl eq_refl
             (Hraw 500 eq_refl) (Hraw 520 eq_refl)).
    vm_compute. discriminate.
  - apply (C8_distance_logged_iff_changed dtostrf_5_2 booted
             (tick true 0 500) (tick true 900 600) eq_refl eq_refl
             (Hraw 500 eq_refl) (Hraw 600 eq_refl)).
    vm_compute. discriminate.
  - apply (C8_distance_logged_iff_changed dtostrf_5_2 booted
             (tick true 0 500) (tick true 900 501) eq_refl eq_refl
             (Hraw 500 eq_refl) (Hraw 501 eq_refl)).
    vm_compute. reflexivity.
Defined.

(** The first pass has no pass before it: it compares against the zero the
    global starts with. *)
Lemma first_pass_distance_log (dtostrf : dht_float -> string) (i : tick_input) :
  reaches_broker i = true ->
  filter is_distance_log (trace_of (first_pass dtostrf i))
  = if fneq (FInt 0) (roundf_cm (in_raw i))
    then [PrintlnFloat (roundf_cm (in_raw i))] else [].
Proof.
  intros Hreach. unfold first_pass.
  rewrite (distance_log_loop _ _ _ Hreach). reflexivity.
Qed.

(** The global [newdistance] is never written. *)
Lemma global_newdistance_untouched (dtostrf : dht_float -> string)
    (i : tick_input) (m : machine) :
  newdistance (machine_of (loop dtostrf i m)) = newdistance m.
Proof.
  destruct (reaches_broker i) eqn:Hreach.
  - destruct (machine_after_loop dtostrf i m Hreach) as [Hm _].
    rewrite Hm. reflexivity.
  - rewrite (loop_blocked _ _ _ Hreach). reflexivity.
Qed.

(** ** The indicators *)

(** C9, as stated, fails: [setup] and a first pass that sees the door open
    write to neither indicator, so it is not the case that exactly one has
    been driven high. *)
Lemma C9_no_indicator_after_first_pass :
  ~ exactly_one_indicator (machine_of (first_pass dtostrf_5_2 (tick true 0 500))).
Proof.
  unfold exactly_one_indicator. vm_compute. intros [[H _]|[H _]]; discriminate.
Qed.

Lemma pin_history_filter (t : list event) (m : machine) :
  pin_history t m = pin_history (filter is_digital_write t) m.
Proof.
  revert m. induction t as [|e t IH]; intros m; [reflexivity|].
  destruct e; cbn [pin_history filter is_digital_write]; try apply IH.
  rewrite IH. reflexivity.
Qed.

Lemma wifi_wait_no_digital_write (polls : list bool) :
  filter is_setup_digital_write (fst (wifi_wait polls)) = [].
Proof.
  induction polls as [|connected rest IH]; [reflexivity|].
  cbn [wifi_wait]. destruct connected; [reflexivity|].
  destruct (wifi_wait rest) as [t left]. exact IH.
Qed.

Lemma setup_no_digital_write (WLAN WPA : string)
    (String16 : Byte.byte -> string) (polls : list bool) (mac : list Byte.byte) :
  filter is_setup_digital_write
    (fst (fst (setup_from_power_on WLAN WPA String16 polls mac))) = [].
Proof.
  unfold setup_from_power_on, setup_network.
  pose proof (wifi_wait_no_digital_write polls) as Hwait.
  destruct (wifi_wait polls) as [t left]. cbn [fst] in Hwait.
  destruct left; cbn [fst snd]; rewrite !filter_app, Hwait; reflexivity.
Qed.

Lemma run_machine_cons (dtostrf : dht_float -> string) (i : tick_input)
    (rest : list tick_input) (m : machine) :
  machine_of (run dtostrf (i :: rest) m)
  = if reaches_broker i then machine_of (run dtostrf rest (after_tick m i))
    else m.
Proof.
  cbn [run]. unfold bind. destruct (reaches_broker i) eqn:Hreach.
  - rewrite (loop_closed_form _ _ _ Hreach).
    unfold machine_of; cbn [fst snd].
    destruct (run dtostrf rest (after_tick m i)) as [[t m'] r]. reflexivity.
  - rewrite (loop_blocked _ _ _ Hreach). reflexivity.
Qed.

Lemma indicators_show_after_tick (m : machine) (i : tick_input) :
  indicators_show (oldstate m) m ->
  indicators_show (oldstate (after_tick m i)) (after_tick m i).
Proof.
  unfold indicators_show, after_tick. cbn [led_green led_red oldstate].
  intros [Hg Hr]. rewrite Hg, Hr.
  destruct (door_open (in_raw i)); destruct (oldstate m); cbn; split; reflexivity.
Qed.

Lemma indicators_show_run (dtostrf : dht_float -> string)
    (ticks : list tick_input) (m : machine) :
  indicators_show (oldstate m) m ->
  indicators_show (oldstate (machine_of (run dtostrf ticks m)))
    (machine_of (run dtostrf ticks m)).
Proof.
  revert m. induction ticks as [|i rest IH]; intros m Hm; [exact Hm|].
  rewrite run_machine_cons. destruct (reaches_broker i); [|exact Hm].
  apply IH. apply indicators_show_after_tick. exact Hm.
Qed.

Lemma indicators_show_exactly_one (open : bool) (m : machine) :
  indicators_show open m -> exactly_one_indicator m.
Proof.
  unfold indicators_show, exactly_one_indicator. intros [Hg Hr].
  rewrite Hg, Hr. destruct open; [left|right]; split; reflexivity.
Qed.

(** C9, amended: the indicators are written on edges only.  [setup], from
    power-on, writes to neither; a pass without an edge writes to neither
    and leaves both as they were.  On an edge the pass writes green first,
    high for OPEN and low for CLOSED, and then red with the opposite level.
    At the end of that pass, and at the end of every later pass, exactly one
    of the two is high and it shows the stored door state.  Between the two
    writes this does not hold: on an edge that follows an earlier one both
    indicators are at the level of the new state, both high on turning to
    OPEN and both low on turning to CLOSED; on the first edge red has not
    been written yet. *)
Theorem C9_indicators_follow_edges (dtostrf : dht_float -> string)
    (m : machine) (i : tick_input) :
  reaches_broker i = true ->
  let r := loop dtostrf i m in
  let open := door_open (in_raw i) in
  ((forall (WLAN WPA : string) (String16 : Byte.byte -> string)
           (polls : list bool) (mac : list Byte.byte),
       filter is_setup_digital_write
         (fst (fst (setup_from_power_on WLAN WPA String16 polls mac))) = [])
   /\ filter is_digital_write (trace_of (setup boot)) = []
   /\ led_green booted = None /\ led_red booted = None)
  /\ (open <> oldstate m ->
      filter is_digital_write (trace_of r)
      = [DigitalWrite LED_GREEN open; DigitalWrite LED_RED (negb open)]
      /\ pin_history (trace_of r) m
         = [(Some open, led_red m); (Some open, Some (negb open))]
      /\ indicators_show open (machine_of r)
      /\ exactly_one_indicator (machine_of r))
  /\ (open <> oldstate m -> indicators_show (oldstate m) m ->
      pin_history (trace_of r) m
      = [(Some open, Some open); (Some open, Some (negb open))]
      /\ map one_high (pin_history (trace_of r) m) = [false; true])
  /\ (open = oldstate m ->
      filter is_digital_write (trace_of r) = []
      /\ pin_history (trace_of r) m = []
      /\ led_green (machine_of r) = led_green m
      /\ led_red (machine_of r) = led_red m)
  /\ (indicators_show (oldstate m) m ->
      indicators_show (oldstate (machine_of r)) (machine_of r))
  /\ (forall later : list tick_input,
        let m' := machine_of (run dtostrf later (machine_of r)) in
        open <> oldstate m \/ indicators_show (oldstate m) m ->
        indicators_show (oldstate m') m' /\ exactly_one_indicator m').
Proof.
  intros Hreach r open. subst r open.
  split; [split; [intros; apply setup_no_digital_write | repeat split]|].
  assert (Hlater : forall later : list tick_input,
             door_open (in_raw i) <> oldstate m \/ indicators_show (oldstate m) m ->
             indicators_show
               (oldstate (machine_of (run dtostrf later (after_tick m i))))
               (machine_of (run dtostrf later (after_tick m i)))).
  { intros later Hm. apply indicators_show_run.
    destruct Hm as [Hedge|Hshow]; [|apply indicators_show_after_tick; exact Hshow].
    unfold indicators_show, after_tick. cbn [led_green led_red oldstate].
    destruct (door_open (in_raw i)); destruct (oldstate m); cbn;
      try congruence; split; reflexivity. }
  rewrite (pin_history_filter (trace_of (loop dtostrf i m)) m).
  rewrite (loop_closed_form _ _ _ Hreach).
  unfold trace_of, machine_of; cbn [fst snd].
  rewrite filter_app, (connect_trace_filter _ _ reconnect_no_digital_write).
  repeat match goal with |- _ /\ _ => split end.
  - intros Hedge.
    unfold telemetry_trace, distance_trace, edge_trace, after_tick,
      indicators_show, exactly_one_indicator.
    cbn [led_green led_red oldstate].
    destruct (fires m i); destruct (fneq _ _);
      destruct (door_open (in_raw i)); destruct (oldstate m); cbn;
      repeat split; try congruence; tauto.
  - intros Hedge [Hg Hr].
    unfold telemetry_trace, distance_trace, edge_trace.
    destruct (fires m i); destruct (fneq _ _);
      destruct (door_open (in_raw i)); destruct (oldstate m); cbn in *;
      rewrite ?Hr; split; congruence.
  - intros Hsame.
    unfold telemetry_trace, distance_trace, edge_trace, after_tick.
    cbn [led_green led_red oldstate].
    destruct (fires m i); destruct (fneq _ _);
      destruct (door_open (in_raw i)); destruct (oldstate m); cbn;
      repeat split; congruence.
  - apply indicators_show_after_tick.
  - intros later Hm. split; [exact (Hlater later Hm)|].
    exact (indicators_show_exactly_one _ _ (Hlater later Hm)).
Qed.

(** An edge to OPEN after an edge to CLOSED: between its two writes both
    indicators are high. *)
Lemma C9_indicators_follow_edges_witness :
  pin_history (trace_of (loop dtostrf_5_2 (tick true 900 500) closed_after_first_pass))
    closed_after_first_pass
  = [(Some true, Some true); (Some true, Some false)]
  /\ exactly_one_indicator
       (machine_of (loop dtostrf_5_2 (tick true 900 500) closed_after_first_pass)).
Proof.
  assert (Hedge : door_open (in_raw (tick true 900 500))
                  <> oldstate closed_after_first_pass)
    by (vm_compute; discriminate).
  assert (Hshow : indicators_show (oldstate closed_after_first_pass)
                    closed_after_first_pass)
    by (vm_compute; split; reflexivity).
  destruct (C9_indicators_follow_edges dtostrf_5_2 closed_after_first_pass
              (tick true 900 500) eq_refl) as (_ & Hon & Hbetween & _).
  destruct (Hon Hedge) as (_ & _ & _ & Hone).
  destruct (Hbetween Hedge Hshow) as [Hhistory _].
  exact (conj Hhistory Hone).
Defined.

(** ** Order of a fire within the pass *)

(** C10: on a pass where the scheduler fires, the trace of the pass splits
    into a part before the fire, the fire, the read of the distance sample,
    and the rest.  The fire publishes three messages, in this order: the
    ping, the temperature, the humidity.  No telemetry message lies outside
    the fire; the sample is read once, after the fire; and every state-change
    message of the pass comes after that read. *)
Theorem C10_fire_precedes_sampling (dtostrf : dht_float -> string)
    (m : machine) (i : tick_input) :
  reaches_broker i = true ->
  fires m i = true ->
  exists pre fire post : list event,
    trace_of (loop dtostrf i m) = pre ++ fire ++ AnalogRead :: post
    /\ publishes fire
       = [Publish MQTT_SENSORS "ping";
          Publish MQTT_TEMP (dtostrf (in_temp i));
          Publish MQTT_HUMI (dtostrf (in_humi i))]
    /\ filter is_telemetry (pre ++ post) = []
    /\ filter is_analog_read (pre ++ fire ++ post) = []
    /\ state_changes (pre ++ fire) = [].
Proof.
  intros Hreach Hfire.
  exists (connect_trace i ++ [ClientLoop]).
  exists [Publish MQTT_SENSORS "ping"; ReadHumidity; ReadTemperature;
          Publish MQTT_TEMP (dtostrf (in_temp i));
          Publish MQTT_HUMI (dtostrf (in_humi i));
          Print "Temperature "; Println (dtostrf (in_temp i));
          Print "Humidity "; Println (dtostrf (in_humi i))].
  exists (distance_trace m i ++ edge_trace m i ++ [Delay SLEEPMS]).
  split; [apply (telemetry_loop _ _ _ Hreach Hfire)|].
  split; [reflexivity|].
  unfold state_changes. rewrite !filter_app.
  rewrite (connect_trace_filter _ _ reconnect_no_telemetry_publish),
    (connect_trace_filter _ _ reconnect_no_analog_read),
    (connect_trace_filter _ _ reconnect_no_state_change).
  unfold distance_trace, edge_trace.
  destruct (fneq _ _); destruct (door_open (in_raw i));
    destruct (oldstate m); repeat split; reflexivity.
Qed.

Lemma C10_fire_precedes_sampling_witness :
  exists pre fire post : list event,
    trace_of (loop dtostrf_5_2 (tick true 10001 600) booted)
    = pre ++ fire ++ AnalogRead :: post
    /\ publishes fire
       = [Publish MQTT_SENSORS "ping"; Publish MQTT_TEMP "21.50";
          Publish MQTT_HUMI "55.30"]
    /\ filter is_telemetry (pre ++ post) = []
    /\ filter is_analog_read (pre ++ fire ++ post) = []
    /\ state_changes (pre ++ fire) = [].
Proof.
  exact (C10_fire_precedes_sampling dtostrf_5_2 booted
           (tick true 10001 600) eq_refl eq_refl).
Defined.


(** * Further properties *)

(** ** [macToStr] *)

Example macToStr_example : macToStr utoa16 mac_example = "5c:cf:7f:a:0:b3".
Proof. reflexivity. Qed.

Lemma string_append_assoc (a b c : string) :
  String.append (String.append a b) c = String.append a (String.append b c).
Proof. induction a as [|x a IH]; cbn; [reflexivity|]. rewrite IH. reflexivity. Qed.

Lemma string_append_nil_r (a : string) : String.append a "" = a.
Proof. induction a as [|x a IH]; cbn; [reflexivity|]. rewrite IH. reflexivity. Qed.

Lemma string_length_append (a b : string) :
  String.length (String.append a b) = (String.length a + String.length b)%nat.
Proof. induction a as [|x a IH]; cbn; [reflexivity|]. rewrite IH. reflexivity. Qed.

(** The loop joins the six renderings with colons. *)
Lemma macToStr_concat (String16 : Byte.byte -> string) (mac : list Byte.byte) :
  macToStr String16 mac
  = String.concat ":" (map (fun i => String16 (nth i mac Byte.x00)) (seq 0 6)).
Proof.
  unfold macToStr. cbn [seq fold_left map String.concat Nat.ltb Nat.leb].
  cbn [String.append]. rewrite !string_append_assoc. reflexivity.
Qed.

(** A colon-free head is determined by the whole. *)
Lemma colon_split (a a' r r' : string) :
  no_colon a = true -> no_colon a' = true ->
  String.append a (String ":"%char r) = String.append a' (String ":"%char r') ->
  a = a' /\ r = r'.
Proof.
  revert a'. induction a as [|x a IH]; intros [|x' a'] Ha Ha' Heq; cbn in *.
  - injection Heq as ->. split; reflexivity.
  - injection Heq as <- _. rewrite Ascii.eqb_refl in Ha'. discriminate.
  - injection Heq as -> _. rewrite Ascii.eqb_refl in Ha. discriminate.
  - injection Heq as -> Heq.
    apply andb_true_iff in Ha. apply andb_true_iff in Ha'.
    destruct (IH a' (proj2 Ha) (proj2 Ha') Heq) as [-> ->]. split; reflexivity.
Qed.

Lemma concat_colon_inj (l l' : list string) :
  List.length l = List.length l' ->
  Forall (fun s => no_colon s = true) l ->
  Forall (fun s => no_colon s = true) l' ->
  String.concat ":" l = String.concat ":" l' ->
  l = l'.
Proof.
  revert l'. induction l as [|a l IH]; intros [|a' l'] Hlen Hl Hl' Heq;
    try discriminate; [reflexivity|].
  inversion Hl as [|? ? Ha Hrest]; subst.
  inversion Hl' as [|? ? Ha' Hrest']; subst.
  destruct l as [|b l]; destruct l' as [|b' l']; try discriminate.
  - cbn in Heq. subst. reflexivity.
  - cbn [String.concat] in Heq. cbn [String.append] in Heq.
    destruct (colon_split _ _ _ _ Ha Ha' Heq) as [-> Hr].
    f_equal. apply IH; try assumption. cbn in Hlen |- *. lia.
Qed.

Lemma utoa16_round_trip (b : Byte.byte) : of_utoa16 (utoa16 b) = Some b.
Proof. destruct b; vm_compute; reflexivity. Qed.

Lemma utoa16_no_colon (b : Byte.byte) : no_colon (utoa16 b) = true.
Proof. destruct b; vm_compute; reflexivity. Qed.

Lemma utoa16_injective (b b' : Byte.byte) : utoa16 b = utoa16 b' -> b = b'.
Proof.
  intros Heq. pose proof (utoa16_round_trip b) as Hb.
  rewrite Heq, utoa16_round_trip in Hb. congruence.
Qed.

Lemma utoa16_length (b : Byte.byte) :
  String.length (utoa16 b) = if (Byte.to_N b <? 16)%N then 1%nat else 2%nat.
Proof. destruct b; vm_compute; reflexivity. Qed.

(** X1: [macToStr] joins the renderings of the six bytes with colons: a
    colon between two bytes, none before the first or after the last.  Its
    length is five more than the lengths of the renderings together. *)
Theorem X1_macToStr_joins_with_colons (String16 : Byte.byte -> string)
    (mac : list Byte.byte) :
  macToStr String16 mac
  = String.concat ":" (map (fun i => String16 (nth i mac Byte.x00)) (seq 0 6))
  /\ String.length (macToStr String16 mac)
     = (5 + list_sum (map (fun i => String.length (String16 (nth i mac Byte.x00)))
                        (seq 0 6)))%nat.
Proof.
  split; [apply macToStr_concat|].
  rewrite macToStr_concat.
  cbn [seq map String.concat list_sum].
  rewrite !string_length_append. unfold list_sum. cbn [String.length fold_right]. lia.
Qed.

(** X2: when the rendering of a byte never contains a colon and tells bytes
    apart, [macToStr] tells six-byte addresses apart: different addresses
    give different identifiers. *)
Theorem X2_macToStr_injective (String16 : Byte.byte -> string)
    (mac mac' : list Byte.byte) :
  (forall b, no_colon (String16 b) = true) ->
  (forall b b', String16 b = String16 b' -> b = b') ->
  List.length mac = 6%nat -> List.length mac' = 6%nat ->
  mac <> mac' ->
  macToStr String16 mac <> macToStr String16 mac'.
Proof.
  intros Hfree Hinj Hlen Hlen' Hne Heq. apply Hne.
  rewrite !macToStr_concat in Heq.
  apply concat_colon_inj in Heq.
  - apply (nth_ext _ _ Byte.x00 Byte.x00); [congruence|].
    intros n Hn. rewrite Hlen in Hn.
    assert (Hin : In n (seq 0 6)) by (apply in_seq; lia).
    apply Hinj.
    assert (Hnth : forall l, nth n (map (fun i => String16 (nth i l Byte.x00)) (seq 0 6)) ""
                             = String16 (nth n l Byte.x00)).
    { intros l.
      rewrite (nth_indep _ "" (String16 (nth 0 l Byte.x00)))
        by (rewrite length_map, length_seq; exact Hn).
      rewrite (map_nth (fun i => String16 (nth i l Byte.x00)) (seq 0 6) 0%nat n).
      rewrite seq_nth by exact Hn. reflexivity. }
    rewrite <- (Hnth mac), <- (Hnth mac'), Heq. reflexivity.
  - rewrite !length_map. reflexivity.
  - apply Forall_forall. intros s Hs. apply in_map_iff in Hs.
    destruct Hs as (i & <- & _). apply Hfree.
  - apply Forall_forall. intros s Hs. apply in_map_iff in Hs.
    destruct Hs as (i & <- & _). apply Hfree.
Qed.

Lemma X2_macToStr_injective_witness :
  macToStr utoa16 mac_example <> macToStr utoa16 mac_example'.
Proof.
  apply (X2_macToStr_injective utoa16 mac_example mac_example'
           utoa16_no_colon utoa16_injective eq_refl eq_refl).
  discriminate.
Defined.

(** ** Waiting for the access point *)

Lemma wifi_wait_failures (k : nat) (rest : list bool) :
  wifi_wait (repeat false k ++ rest)
  = (List.concat (repeat [WiFiStatus; Sketch (Delay 500); Sketch (Print ".")] k)
       ++ fst (wifi_wait rest),
     snd (wifi_wait rest)).
Proof.
  induction k as [|k IH].
  - cbn. destruct (wifi_wait rest); reflexivity.
  - cbn [repeat app wifi_wait List.concat]. rewrite IH. reflexivity.
Qed.

(** X3: [setup] waits for the access point without limit.  After [k] polls
    that do not answer connected it has waited [k] times 500 ms and is still
    polling: it has set up no pin and no broker address, and the state values
    are not initialised.  When the poll after them answers connected, [setup]
    completes: [uid] is [macToStr] of the address and the globals are those
    the first pass of [loop] starts from. *)
Theorem X3_setup_waits_for_access_point (WLAN WPA : string)
    (String16 : Byte.byte -> string) (k : nat) (later : list bool)
    (mac : list Byte.byte) :
  let waiting := setup_from_power_on WLAN WPA String16 (repeat false k) mac in
  let done :=
    setup_from_power_on WLAN WPA String16 (repeat false k ++ true :: later) mac in
  snd waiting = None
  /\ List.length (filter is_wifi_wait (fst (fst waiting))) = k
  /\ filter is_pin_or_broker_setup (fst (fst waiting)) = []
  /\ snd (fst waiting) = boot
  /\ snd done = Some (macToStr String16 mac)
  /\ List.length (filter is_wifi_wait (fst (fst done))) = k
  /\ List.length (filter is_wifi_poll (fst (fst done))) = S k
  /\ snd (fst done) = booted.
Proof.
  intros waiting done. subst waiting done.
  unfold setup_from_power_on, setup_network.
  pose proof (wifi_wait_failures k []) as Hw. rewrite app_nil_r in Hw.
  rewrite Hw, (wifi_wait_failures k (true :: later)). cbn [wifi_wait fst snd].
  assert (Hwaits : forall n,
             List.length (filter is_wifi_wait
               (List.concat (repeat [WiFiStatus; Sketch (Delay 500); Sketch (Print ".")] n)))
             = n).
  { induction n as [|n IH]; [reflexivity|].
    cbn [repeat List.concat]. rewrite filter_app, length_app, IH. reflexivity. }
  assert (Hpolls : forall n,
             List.length (filter is_wifi_poll
               (List.concat (repeat [WiFiStatus; Sketch (Delay 500); Sketch (Print ".")] n)))
             = n).
  { induction n as [|n IH]; [reflexivity|].
    cbn [repeat List.concat]. rewrite filter_app, length_app, IH. reflexivity. }
  assert (Hpins : forall n,
             filter is_pin_or_broker_setup
               (List.concat (repeat [WiFiStatus; Sketch (Delay 500); Sketch (Print ".")] n))
             = []).
  { induction n as [|n IH]; [reflexivity|].
    cbn [repeat List.concat]. rewrite filter_app, IH. reflexivity. }
  repeat split.
  - rewrite app_nil_r, filter_app, length_app, Hwaits. reflexivity.
  - rewrite app_nil_r, filter_app, Hpins. reflexivity.
  - rewrite !filter_app, !length_app, Hwaits. cbn. lia.
  - rewrite !filter_app, !length_app, Hpolls. cbn. lia.
Qed.

(** ** Passes and runs *)

Lemma run_step (dtostrf : dht_float -> string) (i : tick_input)
    (rest : list tick_input) (m : machine) :
  reaches_broker i = true ->
  run dtostrf (i :: rest) m
  = (trace_of (loop dtostrf i m) ++ trace_of (run dtostrf rest (after_tick m i)),
     machine_of (run dtostrf rest (after_tick m i)),
     result_of (run dtostrf rest (after_tick m i))).
Proof.
  intros Hreach. cbn [run]. unfold bind.
  rewrite (loop_closed_form _ _ _ Hreach).
  unfold machine_of, trace_of, result_of; cbn [fst snd].
  destruct (run dtostrf rest (after_tick m i)) as [[t m'] r]. reflexivity.
Qed.

Lemma run_step_parts (dtostrf : dht_float -> string) (i : tick_input)
    (rest : list tick_input) (m : machine) :
  reaches_broker i = true ->
  trace_of (run dtostrf (i :: rest) m)
  = trace_of (loop dtostrf i m) ++ trace_of (run dtostrf rest (after_tick m i))
  /\ machine_of (run dtostrf (i :: rest) m)
     = machine_of (run dtostrf rest (after_tick m i))
  /\ result_of (run dtostrf (i :: rest) m)
     = result_of (run dtostrf rest (after_tick m i)).
Proof.
  intros Hreach. rewrite (run_step _ _ _ _ Hreach). repeat split.
Qed.

Lemma run_stops (dtostrf : dht_float -> string) (i : tick_input)
    (rest : list tick_input) (m : machine) :
  reaches_broker i = false ->
  run dtostrf (i :: rest) m = (connect_trace i, m, None).
Proof.
  intros Hreach. cbn [run]. unfold bind.
  rewrite (loop_blocked _ _ _ Hreach). reflexivity.
Qed.

Lemma reconnect_publishes (attempts : list attempt) :
  existsb (fun a => match failure a with None => true | Some _ => false end)
    attempts = true ->
  publishes (trace_of (reconnect false attempts boot))
  = [Publish MQTT_TOPIC "sensor_online"].
Proof.
  induction attempts as [|a rest IH]; cbn [existsb]; intros H; [discriminate|].
  cbn [reconnect]. destruct (failure a) as [rc|]; cbn in H.
  - specialize (IH H). unfold_sketch; cbn.
    destruct (reconnect false rest boot) as [[t m'] r]. exact IH.
  - unfold_sketch; cbn. destruct rest; reflexivity.
Qed.

Lemma reconnect_blocked_trace (attempts : list attempt) :
  existsb (fun a => match failure a with None => true | Some _ => false end)
    attempts = false ->
  publishes (trace_of (reconnect false attempts boot)) = []
  /\ List.length (filter is_backoff (trace_of (reconnect false attempts boot)))
     = List.length attempts.
Proof.
  induction attempts as [|a rest IH]; cbn [existsb]; intros H;
    [split; reflexivity|].
  apply orb_false_iff in H. destruct H as [Ha Hrest].
  cbn [reconnect]. destruct (failure a) as [rc|]; [|discriminate].
  specialize (IH Hrest). unfold_sketch; cbn.
  destruct (reconnect false rest boot) as [[t m'] r]. cbn in *.
  destruct IH as [-> ->]. split; reflexivity.
Qed.

(** X4: a pass that finds the session up makes no connect attempt, waits
    for no backoff and publishes no announcement. *)
Theorem X4_connected_pass_skips_reconnect (dtostrf : dht_float -> string)
    (m : machine) (i : tick_input) :
  in_connected i = true ->
  filter is_session_event (trace_of (loop dtostrf i m)) = []
  /\ result_of (loop dtostrf i m) = Some tt.
Proof.
  intros Hc.
  assert (Hreach : reaches_broker i = true)
    by (unfold reaches_broker; rewrite Hc; reflexivity).
  rewrite (loop_closed_form _ _ _ Hreach).
  unfold trace_of, result_of, connect_trace; cbn [fst snd]. rewrite Hc.
  unfold telemetry_trace, distance_trace, edge_trace.
  destruct (fires m i); destruct (fneq _ _);
    destruct (door_open (in_raw i)); destruct (oldstate m); split; reflexivity.
Qed.

Lemma X4_connected_pass_skips_reconnect_witness :
  filter is_session_event
    (trace_of (loop dtostrf_5_2 (tick true 10001 600) booted)) = [].
Proof.
  exact (proj1 (X4_connected_pass_skips_reconnect dtostrf_5_2 booted
                  (tick true 10001 600) eq_refl)).
Defined.

(** X5: the messages of a completed pass, in full and in order: the
    announcement when the pass had to reconnect, then the three telemetry
    messages when the scheduler fires, then the state-change message when
    the door state differs from the previous one.  Nothing else is
    published. *)
Theorem X5_publishes_of_a_pass (dtostrf : dht_float -> string) (m : machine)
    (i : tick_input) :
  reaches_broker i = true ->
  publishes (trace_of (loop dtostrf i m)) = publishes_of_pass dtostrf m i.
Proof.
  intros Hreach. rewrite (loop_closed_form _ _ _ Hreach).
  unfold trace_of, publishes, publishes_of_pass; cbn [fst].
  rewrite filter_app. f_equal.
  - unfold connect_trace. unfold reaches_broker in Hreach.
    destruct (in_connected i); [reflexivity|].
    apply (reconnect_publishes _ Hreach).
  - unfold telemetry_trace, distance_trace, edge_trace, edge_message.
    destruct (fires m i); destruct (fneq _ _);
      destruct (door_open (in_raw i)); destruct (oldstate m); reflexivity.
Qed.

Lemma X5_publishes_of_a_pass_witness :
  publishes (trace_of (loop dtostrf_5_2 tick_reconnecting booted))
  = [Publish MQTT_TOPIC "sensor_online"; Publish MQTT_SENSORS "ping";
     Publish MQTT_TEMP "21.50"; Publish MQTT_HUMI "55.30";
     Publish MQTT_TOPIC "garage_closed"].
Proof.
  exact (X5_publishes_of_a_pass dtostrf_5_2 booted tick_reconnecting eq_refl).
Defined.

(** X6: while no attempt succeeds the process stays inside [reconnect]:
    it waits 5000 ms per attempt, publishes nothing, reads no sample, changes
    no global, and none of the later passes is run. *)
Theorem X6_outage_blocks_everything (dtostrf : dht_float -> string)
    (m : machine) (i : tick_input) (later : list tick_input) :
  reaches_broker i = false ->
  let r := run dtostrf (i :: later) m in
  result_of r = None
  /\ machine_of r = m
  /\ publishes (trace_of r) = []
  /\ filter is_analog_read (trace_of r) = []
  /\ List.length (filter is_backoff (trace_of r)) = List.length (in_attempts i).
Proof.
  intros Hreach r. subst r. rewrite (run_stops _ _ _ _ Hreach).
  unfold result_of, machine_of, trace_of; cbn [fst snd].
  unfold reaches_broker in Hreach. apply orb_false_iff in Hreach.
  destruct Hreach as [Hc Hfail].
  destruct (reconnect_blocked_trace _ Hfail) as [Hpub Hwait].
  unfold connect_trace. rewrite Hc.
  repeat split; try assumption.
  apply filter_none. eapply Forall_impl; [|apply reconnect_events].
  exact reconnect_no_analog_read.
Qed.

Lemma X6_outage_blocks_everything_witness :
  machine_of (run dtostrf_5_2 [tick_outage; tick true 20000 600] booted) = booted
  /\ publishes (trace_of (run dtostrf_5_2 [tick_outage; tick true 20000 600] booted))
     = [].
Proof.
  pose proof (X6_outage_blocks_everything dtostrf_5_2 booted tick_outage
                [tick true 20000 600] eq_refl) as (_ & Hm & Hp & _).
  exact (conj Hm Hp).
Defined.

Lemma state_changes_app (t1 t2 : list event) :
  state_changes (t1 ++ t2) = state_changes t1 ++ state_changes t2.
Proof. apply filter_app. Qed.

Lemma last_cons_default {A : Type} (l : list A) :
  forall a d : A, last (a :: l) d = last l a.
Proof.
  induction l as [|b l IH]; intros a d; [reflexivity|].
  change (last (b :: l) d = last (b :: l) a). rewrite !IH. reflexivity.
Qed.

Lemma run_completes (dtostrf : dht_float -> string) (ticks : list tick_input) :
  Forall (fun i => reaches_broker i = true) ticks ->
  forall m : machine,
    result_of (run dtostrf ticks m) = Some tt
    /\ state_changes (trace_of (run dtostrf ticks m))
       = edge_messages (oldstate m) (map (fun i => door_open (in_raw i)) ticks)
    /\ oldstate (machine_of (run dtostrf ticks m))
       = last (map (fun i => door_open (in_raw i)) ticks) (oldstate m).
Proof.
  induction 1 as [|i rest Hi _ IH]; intros m.
  - repeat split.
  - destruct (run_step_parts dtostrf i rest m Hi) as (-> & -> & ->).
    destruct (IH (after_tick m i)) as (Hr & Hs & Ho).
    rewrite state_changes_app, (state_changes_loop _ _ _ Hi), Hr, Hs, Ho.
    cbn [map edge_messages after_tick oldstate].
    repeat split.
    + unfold edge_message.
      destruct (door_open (in_raw i)); destruct (oldstate m); reflexivity.
    + rewrite last_cons_default. reflexivity.
Qed.

Lemma edge_messages_alternate (states : list bool) :
  forall prev : bool,
    exists n : nat, edge_messages prev states = alternating (negb prev) n.
Proof.
  induction states as [|s rest IH]; intros prev.
  - exists 0%nat. reflexivity.
  - cbn [edge_messages]. destruct (IH s) as [n Hn]. rewrite Hn.
    destruct s, prev; cbn.
    + exists n. reflexivity.
    + exists (S n). reflexivity.
    + exists (S n). reflexivity.
    + exists n. reflexivity.
Qed.

(** X7: over a run of completed passes the state-change messages are
    exactly the transitions of the sequence of classified samples, starting
    from the stored previous state; the run ends with the last classification
    stored. *)
Theorem X7_run_publishes_transitions (dtostrf : dht_float -> string)
    (ticks : list tick_input) (m : machine) :
  Forall (fun i => reaches_broker i = true) ticks ->
  result_of (run dtostrf ticks m) = Some tt
  /\ state_changes (trace_of (run dtostrf ticks m))
     = edge_messages (oldstate m) (map (fun i => door_open (in_raw i)) ticks)
  /\ oldstate (machine_of (run dtostrf ticks m))
     = last (map (fun i => door_open (in_raw i)) ticks) (oldstate m).
Proof. intros Hreach. apply run_completes. exact Hreach. Qed.

Lemma X7_run_publishes_transitions_witness :
  state_changes
    (trace_of (run dtostrf_5_2
                 [tick true 0 500; tick true 900 600; tick true 1800 601;
                  tick true 2700 400] booted))
  = [Publish MQTT_TOPIC "garage_closed"; Publish MQTT_TOPIC "garage_opened"].
Proof.
  assert (Hreach : Forall (fun i => reaches_broker i = true)
                     [tick true 0 500; tick true 900 600; tick true 1800 601;
                      tick true 2700 400])
    by (repeat constructor).
  exact (proj1 (proj2 (X7_run_publishes_transitions dtostrf_5_2 _ booted Hreach))).
Defined.

(** X8: the state-change messages of a run alternate: the first one
    reports the state opposite to the stored one, and the sketch never
    publishes ["garage_opened"] twice, or ["garage_closed"] twice, without the
    other in between. *)
Theorem X8_state_changes_alternate (dtostrf : dht_float -> string)
    (ticks : list tick_input) (m : machine) :
  Forall (fun i => reaches_broker i = true) ticks ->
  exists n : nat,
    state_changes (trace_of (run dtostrf ticks m))
    = alternating (negb (oldstate m)) n.
Proof.
  intros Hreach. destruct (run_completes dtostrf ticks Hreach m) as (_ & Hs & _).
  rewrite Hs. apply edge_messages_alternate.
Qed.

Lemma X8_state_changes_alternate_witness :
  exists n : nat,
    state_changes
      (trace_of (run dtostrf_5_2
                   [tick true 0 543; tick true 900 544; tick true 1800 543] booted))
    = alternating false n.
Proof.
  assert (Hreach : Forall (fun i => reaches_broker i = true)
                     [tick true 0 543; tick true 900 544; tick true 1800 543])
    by (repeat constructor).
  exact (X8_state_changes_alternate dtostrf_5_2 _ booted Hreach).
Defined.

Lemma run_machine_invariant (P : machine -> Prop) (dtostrf : dht_float -> string) :
  (forall m i, reaches_broker i = true -> P m -> P (after_tick m i)) ->
  forall (ticks : list tick_input) (m : machine),
    P m -> P (machine_of (run dtostrf ticks m)).
Proof.
  intros Hstep ticks. induction ticks as [|i rest IH]; intros m Hm; [exact Hm|].
  destruct (reaches_broker i) eqn:Hreach.
  - destruct (run_step_parts dtostrf i rest m Hreach) as (_ & -> & _).
    apply IH. apply Hstep; assumption.
  - rewrite (run_stops _ _ _ _ Hreach). exact Hm.
Qed.

(** X9: from boot on, through any passes, either no indicator has been
    written yet, and then the door has been classified open on every completed
    pass, or green and red show the stored door state, exactly one of them
    high. *)
Theorem X9_indicators_consistent (dtostrf : dht_float -> string)
    (ticks : list tick_input) :
  indicators_consistent (machine_of (run dtostrf ticks booted)).
Proof.
  apply run_machine_invariant.
  - intros m i _ Hm. unfold indicators_consistent, indicators_show, after_tick in *.
    cbn [led_green led_red oldstate].
    destruct Hm as [(Hg & Hr & Ho)|[Hg Hr]].
    + rewrite Ho, Hg, Hr. destruct (door_open (in_raw i)); cbn.
      * left. repeat split.
      * right. split; reflexivity.
    + right. rewrite Hg, Hr.
      destruct (door_open (in_raw i)); destruct (oldstate m); cbn; split; reflexivity.
  - left. repeat split.
Qed.

(** X11: what a pass does about the door depends on the sample and the
    stored door values only, not on the clock, the DHT readings or the
    connection; and whether it fires depends on the clock and the time of the
    last fire only, not on the sample. *)
Theorem X11_door_and_telemetry_independent (dtostrf : dht_float -> string)
    (m m' : machine) (i i' : tick_input) :
  reaches_broker i = true ->
  reaches_broker i' = true ->
  (in_raw i = in_raw i' ->
   oldstate m = oldstate m' -> olddistance m = olddistance m' ->
   state_changes (trace_of (loop dtostrf i m))
   = state_changes (trace_of (loop dtostrf i' m'))
   /\ filter is_distance_log (trace_of (loop dtostrf i m))
      = filter is_distance_log (trace_of (loop dtostrf i' m'))
   /\ oldstate (machine_of (loop dtostrf i m))
      = oldstate (machine_of (loop dtostrf i' m'))
   /\ olddistance (machine_of (loop dtostrf i m))
      = olddistance (machine_of (loop dtostrf i' m')))
  /\ (in_now i = in_now i' -> last_msg_sent m = last_msg_sent m' ->
      pings (trace_of (loop dtostrf i m)) = pings (trace_of (loop dtostrf i' m'))
      /\ last_msg_sent (machine_of (loop dtostrf i m))
         = last_msg_sent (machine_of (loop dtostrf i' m'))).
Proof.
  intros H H'.
  destruct (machine_after_loop dtostrf i m H) as [Hm _].
  destruct (machine_after_loop dtostrf i' m' H') as [Hm' _].
  rewrite !(state_changes_loop _ _ _ H), !(state_changes_loop _ _ _ H').
  rewrite !(distance_log_loop _ _ _ H), !(distance_log_loop _ _ _ H').
  rewrite !(pings_loop _ _ _ H), !(pings_loop _ _ _ H'), Hm, Hm'.
  unfold after_tick, fires; cbn [oldstate olddistance last_msg_sent].
  split.
  - intros -> -> ->. repeat split.
  - intros -> ->. repeat split.
Qed.

Lemma X11_door_and_telemetry_independent_witness :
  state_changes (trace_of (loop dtostrf_5_2 (tick true 0 600) booted))
  = state_changes (trace_of (loop dtostrf_5_2 tick_reconnecting booted)).
Proof.
  destruct (X11_door_and_telemetry_independent dtostrf_5_2 booted booted
              (tick true 0 600) tick_reconnecting eq_refl eq_refl) as [Hdoor _].
  exact (proj1 (Hdoor eq_refl eq_refl eq_refl)).
Defined.

(** X12: the global [newdistance] keeps its initial value through any
    passes, completed or not: only the local of the same name is written. *)
Theorem X12_global_newdistance_never_written (dtostrf : dht_float -> string)
    (ticks : list tick_input) (m : machine) :
  newdistance (machine_of (run dtostrf ticks m)) = newdistance m.
Proof.
  apply (run_machine_invariant (fun m' => newdistance m' = newdistance m)).
  - intros m0 i _ Hm0. exact Hm0.
  - reflexivity.
Qed.

(** X10: after any run of completed passes, one at least, [state] and
    [oldstate] agree and are the comparison of the stored distance with 20,
    and the stored distance is the rounded distance of the last sample. *)
Theorem X10_stored_state_matches_distance (dtostrf : dht_float -> string)
    (i : tick_input) (rest : list tick_input) (m : machine) :
  Forall (fun j => reaches_broker j = true) (i :: rest) ->
  let m' := machine_of (run dtostrf (i :: rest) m) in
  state m' = oldstate m'
  /\ oldstate m' = fge (olddistance m') 20
  /\ olddistance m' = roundf_cm (in_raw (last rest i)).
Proof.
  intros Hreach m'. subst m'. revert i m Hreach.
  induction rest as [|j rest IH]; intros i m Hreach;
    inversion Hreach as [|? ? Hi Hrest]; subst.
  - destruct (run_step_parts dtostrf i [] m Hi) as (_ & -> & _).
    cbn [run ret machine_of fst snd last]. repeat split.
  - destruct (run_step_parts dtostrf i (j :: rest) m Hi) as (_ & -> & _).
    rewrite (last_cons_default rest j i).
    apply IH. exact Hrest.
Qed.

Lemma X10_stored_state_matches_distance_witness :
  olddistance (machine_of (run dtostrf_5_2 [tick true 0 500; tick true 900 600] booted))
  = roundf_cm 600.
Proof.
  assert (Hreach : Forall (fun i => reaches_broker i = true)
                     [tick true 0 500; tick true 900 600])
    by (repeat constructor).
  exact (proj2 (proj2 (X10_stored_state_matches_distance dtostrf_5_2
                         (tick true 0 500) [tick true 900 600] booted Hreach))).
Defined.

(** ** The curve over the range of the ADC *)

(** X13: for every sample the ADC can deliver, zero included, the pass
    classifies the door as OPEN exactly when the sample is at most 543. *)
Theorem X13_open_iff_sample_at_most_543 (dtostrf : dht_float -> string)
    (m : machine) (i : tick_input) :
  reaches_broker i = true ->
  0 <= in_raw i ->
  state (machine_of (loop dtostrf i m)) = (in_raw i <=? 543).
Proof.
  intros Hreach Hraw. destruct (machine_after_loop dtostrf i m Hreach) as [Hm _].
  rewrite Hm. cbn [after_tick state].
  destruct (Z.eq_dec (in_raw i) 0) as [Hz|Hnz].
  - rewrite Hz. reflexivity.
  - apply door_open_threshold. lia.
Qed.

Lemma X13_open_iff_sample_at_most_543_witness :
  state (machine_of (loop dtostrf_5_2 (tick true 0 544) booted)) = false.
Proof.
  assert (Hraw : 0 <= in_raw (tick true 0 544)) by (cbn; lia).
  exact (X13_open_iff_sample_at_most_543 dtostrf_5_2 booted (tick true 0 544)
           eq_refl Hraw).
Defined.

Lemma spec_round_monotone (x z : R) :
  (x <= z)%R -> Spec.round x <= Spec.round z.
Proof.
  intros Hxz. unfold Spec.round.
  destruct (Rle_dec 0 x) as [Hx|Hx]; destruct (Rle_dec 0 z) as [Hz|Hz].
  - apply Zfloor_le. lra.
  - lra.
  - assert (0 <= Zfloor (- x + / 2)) by (apply Zfloor_lub; lra).
    assert (0 <= Zfloor (z + / 2)) by (apply Zfloor_lub; lra).
    lia.
  - assert (Zfloor (- z + / 2) <= Zfloor (- x + / 2)) by (apply Zfloor_le; lra).
    lia.
Qed.

Lemma spec_cm_decreasing (r1 r2 : Z) :
  1 <= r1 <= r2 -> (Spec.cm r2 <= Spec.cm r1)%R.
Proof.
  intros Hr. rewrite !CalibrationFacts.cm_y.
  pose proof (CalibrationFacts.y_root r1) as H1.
  pose proof (CalibrationFacts.y_root r2) as H2.
  pose proof (CalibrationFacts.root_pos r1) as Hp1.
  pose proof (CalibrationFacts.root_pos r2) as Hp2.
  pose proof (CalibrationFacts.y_pos r1) as Hy1.
  pose proof (CalibrationFacts.y_pos r2) as Hy2.
  assert (Hroot : (CurveReal.root r1 <= CurveReal.root r2)%R).
  { unfold CurveReal.root. apply Rle_Rpower_l; [lra|].
    split; [apply IZR_lt; lia | apply IZR_le; lia]. }
  assert (Hy : (CurveReal.y r2 <= CurveReal.y r1)%R) by nra.
  lra.
Qed.

Lemma rounded_cm_monotone (r1 r2 : Z) :
  1 <= r1 <= r2 -> Calibration.rounded_cm r2 <= Calibration.rounded_cm r1.
Proof.
  intros Hr. rewrite !CalibrationFacts.rounded_cm_real by lia.
  apply spec_round_monotone. apply spec_cm_decreasing. exact Hr.
Qed.

Lemma rounded_cm_adc_range (raw : Z) :
  1 <= raw <= 1023 -> 6 <= Calibration.rounded_cm raw <= 10640.
Proof.
  intros Hraw.
  assert (Hlo : Calibration.rounded_cm 1023 = 6) by (vm_compute; reflexivity).
  assert (Hhi : Calibration.rounded_cm 1 = 10640) by (vm_compute; reflexivity).
  pose proof (rounded_cm_monotone 1 raw ltac:(lia)).
  pose proof (rounded_cm_monotone raw 1023 ltac:(lia)).
  lia.
Qed.

(** X14: a larger sample never gives a larger distance, and over the
    samples 1 to 1023 of the ADC the rounded distance stays between 6 and
    10640 centimetres. *)
Theorem X14_distance_decreases_with_sample (r1 r2 : Z) :
  1 <= r1 <= r2 ->
  Calibration.rounded_cm r2 <= Calibration.rounded_cm r1
  /\ (r2 <= 1023 ->
      6 <= Calibration.rounded_cm r1 <= 10640
      /\ 6 <= Calibration.rounded_cm r2 <= 10640).
Proof.
  intros Hr. split; [apply rounded_cm_monotone; exact Hr|].
  intros Hmax. split; apply rounded_cm_adc_range; lia.
Qed.

Lemma X14_distance_decreases_with_sample_witness :
  Calibration.rounded_cm 600 <= Calibration.rounded_cm 500
  /\ 6 <= Calibration.rounded_cm 600 <= 10640.
Proof.
  assert (H : 1 <= 500 <= 600) by lia.
  assert (Hmax : 600 <= 1023) by lia.
  destruct (X14_distance_decreases_with_sample 500 600 H) as [Hmono Hrange].
  exact (conj Hmono (proj2 (Hrange Hmax))).
Defined.

(** X15: on the samples 1 to 1024 the curve stays clear of the rounding
    boundaries: any value within a relative error of [2^-17] of the exact
    curve rounds to the distance of the model. *)
Theorem X15_rounding_tolerates_float_error (raw : Z) (x : R) :
  1 <= raw <= 1024 ->
  (Rabs (x - Spec.cm raw) <= (Spec.cm raw + 10) / 131072)%R ->
  FInt (Spec.round x) = roundf_cm raw.
Proof.
  intros Hraw Hx. unfold roundf_cm.
  destruct (Z.ltb_spec raw 0) as [Hneg|_]; [lia|].
  destruct (Z.eqb_spec raw 0) as [Hz|_]; [lia|].
  f_equal. apply CalibrationMargin.calibration_margin; assumption.
Qed.

(** The binary32 number [11482879 / 2^19 = 21.9018535...] lies above the
    curve at the sample 500, within the margin, and rounds to 22 as the curve
    does. *)
Lemma X15_rounding_tolerates_float_error_witness :
  (Spec.cm 500 < 11482879 / 524288)%R
  /\ FInt (Spec.round (11482879 / 524288)) = roundf_cm 500.
Proof.
  assert (Hup : Margin.below_scaled 500 836287950 131073 = true)
    by (vm_compute; reflexivity).
  assert (Hlow : Margin.below_scaled 500 836287950 131072 = false)
    by (vm_compute; reflexivity).
  assert (Hupr : (IZR 836287950 <= IZR 131073 * CurveReal.y 500)%R)
    by (apply (CalibrationMargin.below_scaled_iff 500 836287950 131073);
        [lia | lia | lia | exact Hup]).
  assert (Hlowr : (IZR 131072 * CurveReal.y 500 < IZR 836287950)%R).
  { apply Rnot_le_lt. intros Hle.
    rewrite (proj2 (CalibrationMargin.below_scaled_iff 500 836287950 131072
                      ltac:(lia) ltac:(lia) ltac:(lia)) Hle) in Hlow.
    discriminate Hlow. }
  assert (Hcm : Spec.cm 500 = (CurveReal.y 500 / 200 - 10)%R)
    by apply CalibrationFacts.cm_y.
  assert (Habove : (Spec.cm 500 < 11482879 / 524288)%R) by (rewrite Hcm; lra).
  split; [exact Habove|].
  assert (Hraw : 1 <= 500 <= 1024) by lia.
  apply (X15_rounding_tolerates_float_error 500 (11482879 / 524288) Hraw).
  unfold Rabs. destruct (Rcase_abs _); rewrite Hcm in *; lra.
Defined.

(** ** The scheduler across the wrap-around of the clock *)

Lemma long_sub_wraps (last_u d : Z) :
  0 <= last_u < Long.modulus -> 0 <= d < Long.half_modulus ->
  Long.sub (Long.of_ulong ((last_u + d) mod Long.modulus)) (Long.of_ulong last_u) = d.
Proof.
  unfold Long.sub, Long.of_ulong, Long.wrap, Long.modulus, Long.half_modulus.
  change (2 ^ 32) with 4294967296. change (2 ^ 31) with 2147483648.
  intros Hlast Hd. Z.div_mod_to_equations. lia.
Qed.

(** X16: with [long] wrapping around in 32 bits, the scheduler's test
    measures the elapsed time correctly across the wrap-around of
    [millis()]: when [d] milliseconds, fewer than 2^31, have passed since the
    last fire, the pass fires exactly when [d] exceeds 10000, wherever the
    counter stood. *)
Theorem X16_scheduler_survives_clock_wrap (dtostrf : dht_float -> string)
    (m : machine) (i : tick_input) (last_u d : Z) :
  reaches_broker i = true ->
  0 <= last_u < Long.modulus ->
  0 <= d < Long.half_modulus ->
  last_msg_sent m = Long.of_ulong last_u ->
  in_now i = (last_u + d) mod Long.modulus ->
  pings (trace_of (loop dtostrf i m))
  = (if 10000 <? d then [Publish MQTT_SENSORS "ping"] else [])
  /\ last_msg_sent (machine_of (loop dtostrf i m))
     = Long.of_ulong (if 10000 <? d then last_u + d else last_u).
Proof.
  intros Hreach Hlast Hd Hm Hnow.
  destruct (machine_after_loop dtostrf i m Hreach) as [Hafter _].
  rewrite (pings_loop _ _ _ Hreach), Hafter.
  unfold after_tick, fires; cbn [last_msg_sent].
  rewrite Hm, Hnow, (long_sub_wraps _ _ Hlast Hd).
  destruct (10000 <? d); split; try reflexivity.
  unfold Long.of_ulong, Long.wrap, Long.modulus, Long.half_modulus.
  change (2 ^ 32) with 4294967296. change (2 ^ 31) with 2147483648.
  Z.div_mod_to_equations. lia.
Qed.

Lemma X16_scheduler_survives_clock_wrap_witness :
  pings (trace_of (loop dtostrf_5_2 (tick true 2705 500) machine_before_wrap))
  = [Publish MQTT_SENSORS "ping"].
Proof.
  assert (H1 : 0 <= 4294960000 < Long.modulus) by (vm_compute; split; congruence).
  assert (H2 : 0 <= 10001 < Long.half_modulus) by (vm_compute; split; congruence).
  exact (proj1 (X16_scheduler_survives_clock_wrap dtostrf_5_2 machine_before_wrap
                  (tick true 2705 500) 4294960000 10001 eq_refl H1 H2 eq_refl eq_refl)).
Defined.


(** ** What [reconnect] and the first pass never do *)

(** X17: [reconnect] leaves every global and both indicators as they
    are, and what it does depends on the answers of the broker only, not on
    the globals. *)
Theorem X17_reconnect_leaves_globals (connected : bool)
    (attempts : list attempt) (m m' : machine) :
  machine_of (reconnect connected attempts m) = m
  /\ trace_of (reconnect connected attempts m)
     = trace_of (reconnect connected attempts m')
  /\ result_of (reconnect connected attempts m)
     = result_of (reconnect connected attempts m').
Proof.
  rewrite (reconnect_frame attempts connected m),
    (reconnect_frame attempts connected m').
  repeat split.
Qed.

(** X18: the first pass after boot always logs the distance, for every
    sample from 0 to 1023: the zero that [olddistance] starts with is none of
    the distances the curve gives there. *)
Theorem X18_first_pass_logs_distance (dtostrf : dht_float -> string)
    (i : tick_input) :
  reaches_broker i = true ->
  0 <= in_raw i <= 1023 ->
  filter is_distance_log (trace_of (first_pass dtostrf i))
  = [PrintlnFloat (roundf_cm (in_raw i))].
Proof.
  intros Hreach Hraw. rewrite (first_pass_distance_log _ _ Hreach).
  unfold roundf_cm.
  destruct (Z.ltb_spec (in_raw i) 0) as [Hneg|_]; [lia|].
  destruct (Z.eqb_spec (in_raw i) 0) as [Hz|Hnz]; [reflexivity|].
  pose proof (rounded_cm_adc_range (in_raw i) ltac:(lia)) as Hrange.
  cbn [fneq]. destruct (Z.eqb_spec 0 (Calibration.rounded_cm (in_raw i))); [lia|].
  reflexivity.
Qed.

Lemma X18_first_pass_logs_distance_witness :
  filter is_distance_log (trace_of (first_pass dtostrf_5_2 (tick true 0 1023)))
  = [PrintlnFloat (roundf_cm 1023)].
Proof.
  assert (Hraw : 0 <= in_raw (tick true 0 1023) <= 1023) by (cbn; lia).
  exact (X18_first_pass_logs_distance dtostrf_5_2 (tick true 0 1023) eq_refl Hraw).
Defined.
